(** * AVR fuse and lock-bit reader: a shallow embedding of [read_fuses.py]

    The module [owfmodules.avrisp.read_fuses] reads the fuse and lock bytes
    of an AVR microcontroller over SPI and decodes each byte with a
    per-device table of bit masks.  This file embeds the methods
    [count_trailing_zero], [print_table], [parse_fuse], [read_fuses] and
    [read_lockbits] of the class [ReadFuses] and proves the properties of
    the decoder stated in the specification.

    Python integers are unbounded, so they are values of [Z]; [&] is
    [Z.land] and [>>] is [Z.shiftr] (both agree with Python on negative
    numbers as well).  A Python [dict] keeps its keys in insertion order and
    holds each key once: it is an association list, and the uniqueness of
    the keys is the hypothesis [NoDup (keys d)] where a proof needs it. *)

From Stdlib Require Import ZArith List String Ascii Bool Lia.
From Stdlib Require Import HexString.
Import ListNotations.

#[local] Open Scope string_scope.
#[local] Open Scope list_scope.
#[local] Open Scope Z_scope.

(** ** The [while] loop of [count_trailing_zero] *)

(** [count_trailing_zero] is

<<
    count = 0
    while (x & 1) == 0:
        x = x >> 1
        count += 1
    return count
>>

    The loop does not end on [x = 0], so the embedding counts the
    evaluations of the loop test against a budget; [None] says that the
    budget was used up before the loop was left. *)
Fixpoint count_trailing_zero_loop (fuel : nat) (x count : Z) : option Z :=
  match fuel with
  | O => None
  | S fuel' =>
      if Z.land x 1 =? 0
      then count_trailing_zero_loop fuel' (Z.shiftr x 1) (count + 1)
      else Some count
  end.

Definition count_trailing_zero (fuel : nat) (x : Z) : option Z :=
  count_trailing_zero_loop fuel x 0.

(** Python's [int.bit_length]: the number of bits of the absolute value. *)
Definition bit_length (x : Z) : Z :=
  if x =? 0 then 0 else Z.log2 (Z.abs x) + 1.

(** ** Python values of the decoder *)

(** A [dict] with string keys, in insertion order. *)
Definition dict (V : Type) : Type := list (string * V).

Definition keys {V : Type} (d : dict V) : list string := map fst d.

(** [d[k]]; [None] stands for [KeyError]. *)
Fixpoint dict_get {V : Type} (d : dict V) (k : string) : option V :=
  match d with
  | [] => None
  | (k', v) :: d' => if String.eqb k' k then Some v else dict_get d' k
  end.

(** [d[k] = v]: an existing key keeps its place, a new key goes last. *)
Fixpoint dict_set {V : Type} (d : dict V) (k : string) (v : V) : dict V :=
  match d with
  | [] => [(k, v)]
  | (k', v') :: d' =>
      if String.eqb k' k then (k', v) :: d' else (k', v') :: dict_set d' k v
  end.

(** One entry of [fuse_dict[fuse_name]["values"]]: the keys ["value"] (a
    hexadecimal literal) and ["caption"]. *)
Record fuse_value_spec : Type := mkValue {
  ev_value : string;
  ev_caption : string
}.

(** One entry of a fuse table: the keys ["caption"], ["mask"] (a
    hexadecimal literal) and ["values"]. *)
Record fuse_spec : Type := mkFuse {
  fs_caption : string;
  fs_mask : string;
  fs_values : dict fuse_value_spec
}.

(** The device description handed over by the device-identification module:
    the keys ["fuse_low"], ["fuse_high"], ["fuse_extended"], ["lock_bits"]. *)
Record device_spec : Type := mkDevice {
  fuse_low : dict fuse_spec;
  fuse_high : dict fuse_spec;
  fuse_extended : dict fuse_spec;
  lock_bits : dict fuse_spec
}.

(** The ["value"] of an output entry is the table's literal (a [str]) for an
    enumerated fuse and the [int] 1 or 0 otherwise. *)
Inductive pyvalue : Type :=
| VStr (s : string)
| VInt (z : Z).

(** An entry of the [output] dictionary of [parse_fuse]: the keys ["descr"],
    ["value_descr"], ["value"] and ["mask"]. *)
Record decoded : Type := mkDecoded {
  out_descr : string;
  out_value_descr : string;
  out_value : pyvalue;
  out_mask : string
}.

(** ** Effects: the logger, the SPI interface and the terminal *)

Inductive level : Type := ERROR | RESULT | INFO.

Inductive spi_event : Type :=
| Transmit (data : list Byte.byte)
| Receive (size : Z).

(** What [print_table] hands to [print]: the table with its width, its
    headers and its rows (the cells of a row are the name with the
    description, the status, the value and the mask). *)
Record table : Type := mkTable {
  max_width : Z;
  column_headers : list string;
  rows : list (string * string * pyvalue * string)
}.

(** The world a method runs in: the messages given to [self.logger], the
    calls made on [spi_interface], the bytes the target still has to
    answer, the width of the terminal and what was printed. *)
Record world : Type := mkWorld {
  logged : list (string * level);
  spi : list spi_event;
  rx : list Byte.byte;
  t_width : Z;
  printed : list table
}.

Inductive exn : Type := ValueError | KeyError | IndexError.

(** How a call ends: it returns, raises, or is still looping when the budget
    of [count_trailing_zero] is used up. *)
Inductive res (A : Type) : Type :=
| Ok (a : A)
| Raise (e : exn)
| Diverge.

Arguments Ok {A} a.
Arguments Raise {A} e.
Arguments Diverge {A}.

Definition M (A : Type) : Type := world -> world * res A.

Definition ret {A : Type} (a : A) : M A := fun w => (w, Ok a).

Definition bind {A B : Type} (m : M A) (f : A -> M B) : M B :=
  fun w =>
    match m w with
    | (w', Ok a) => f a w'
    | (w', Raise e) => (w', Raise e)
    | (w', Diverge) => (w', Diverge)
    end.

Declare Scope py_scope.
Delimit Scope py_scope with py.
Notation "x <- m ;; k" := (bind m (fun x => k))
  (at level 61, m at next level, right associativity) : py_scope.
Notation "m ;;; k" := (bind m (fun _ => k))
  (at level 61, right associativity) : py_scope.
#[local] Open Scope py_scope.

Definition raise {A : Type} (e : exn) : M A := fun w => (w, Raise e).

(** A value that may be missing, with the exception raised when it is. *)
Definition or_raise {A : Type} (e : exn) (o : option A) : M A :=
  match o with
  | Some a => ret a
  | None => raise e
  end.

(** The result of a loop run on a budget. *)
Definition or_diverge {A : Type} (o : option A) : M A :=
  match o with
  | Some a => ret a
  | None => fun w => (w, Diverge)
  end.

Definition res_map {A B : Type} (f : A -> B) (r : res A) : res B :=
  match r with
  | Ok a => Ok (f a)
  | Raise e => Raise e
  | Diverge => Diverge
  end.

(** Whether a call returned. *)
Definition returned {A : Type} (r : res A) : bool :=
  match r with
  | Ok _ => true
  | Raise _ | Diverge => false
  end.

(** [d[k] = v] when there is a [v] to store. *)
Definition dict_store {V : Type} (d : dict V) (k : string) (o : option V) : dict V :=
  match o with
  | Some v => dict_set d k v
  | None => d
  end.

(** The world after some more messages were logged. *)
Definition add_log (w : world) (msgs : list (string * level)) : world :=
  mkWorld (logged w ++ msgs) (spi w) (rx w) (t_width w) (printed w).

(** [self.logger.handle(msg, lvl)] *)
Definition logger_handle (msg : string) (lvl : level) : M unit :=
  fun w => (add_log w [(msg, lvl)], Ok tt).

(** [spi_interface.transmit(data)] *)
Definition spi_transmit (data : list Byte.byte) : M unit :=
  fun w => (mkWorld (logged w) (spi w ++ [Transmit data]) (rx w) (t_width w) (printed w),
            Ok tt).

(** [spi_interface.receive(size)]: the next [size] bytes of the target, or
    fewer when it has no more to give. *)
Definition spi_receive (size : Z) : M (list Byte.byte) :=
  fun w =>
    let n := Z.to_nat size in
    (mkWorld (logged w) (spi w ++ [Receive size]) (skipn n (rx w)) (t_width w) (printed w),
     Ok (firstn n (rx w))).

(** [bs[0]] on a [bytes] object: an [int] in 0..255, or [IndexError]. *)
Definition bytes_head (bs : list Byte.byte) : M Z :=
  match bs with
  | [] => raise IndexError
  | b :: _ => ret (Z.of_N (Byte.to_N b))
  end.

(** Python's [hex]: ["0x"] and lower-case digits, a leading ["-"] for a
    negative number. *)
Definition hex (z : Z) : string := HexString.of_Z z.

(** [for k, v in d.items(): s = body(k, v, s)] *)
Fixpoint for_items {V S : Type} (items : dict V) (body : string -> V -> S -> M S)
  (s : S) : M S :=
  match items with
  | [] => ret s
  | (k, v) :: items' => s' <- body k v s ;; for_items items' body s'
  end.

(** [print_table(data, headers)]: the table is at most 95 columns wide, or
    as wide as the terminal when that is narrower; one row per entry of
    [data], whose first cell is ["{}\n({})".format(fuse, details["descr"])]. *)
Definition newline : string := String (ascii_of_nat 10) "".

Definition print_table (data : dict decoded) (headers : list string) : M unit :=
  fun w =>
    let width := if 95 <=? t_width w then 95 else t_width w in
    let row := fun '(fuse, details) =>
      ((fuse ++ newline ++ "(" ++ out_descr details ++ ")")%string,
       out_value_descr details, out_value details, out_mask details) in
    (mkWorld (logged w) (spi w) (rx w) (t_width w)
       (printed w ++ [mkTable width headers (map row data)]),
     Ok tt).

(** ** The decoder [parse_fuse] and its callers *)

Section Decoder.

(** Python's [int(s, 16)], [None] for [ValueError].  The decoder only
    needs it to be a function of the string. *)
Variable int16 : string -> option Z.

(** The search through ["values"]:

<<
  for name, descr in fuse_dict[fuse_name]["values"].items():
      if int(descr["value"], 16) == result >> trailing_zero:
          output[fuse_name] = {...}
          break
  else:
      self.logger.handle("Invalid value for {} ==> got: {}".format(
          fuse_name, hex(result >> trailing_zero)), self.logger.ERROR)
>>

    [code] is [result >> trailing_zero]; the empty list is the [else]
    clause, reached when no entry made the loop [break]. *)
Fixpoint parse_fuse_values (fuse_name : string) (entry : fuse_spec) (code : Z)
  (items : dict fuse_value_spec) (output : dict decoded) : M (dict decoded) :=
  match items with
  | [] =>
      logger_handle
        ("Invalid value for " ++ fuse_name ++ " ==> got: " ++ hex code)%string
        ERROR ;;;
      ret output
  | (name, descr) :: items' =>
      v <- or_raise ValueError (int16 (ev_value descr)) ;;
      if v =? code
      then ret (dict_set output fuse_name
                  (mkDecoded (fs_caption entry) (ev_caption descr)
                     (VStr (ev_value descr)) (fs_mask entry)))
      else parse_fuse_values fuse_name entry code items' output
  end.

(** The body of the loop of [parse_fuse] for the key [fuse_name]. *)
Definition parse_fuse_entry (fuel : nat) (fuse_dict : dict fuse_spec) (fuse_value : Z)
  (fuse_name : string) (output : dict decoded) : M (dict decoded) :=
  entry <- or_raise KeyError (dict_get fuse_dict fuse_name) ;;
  mask <- or_raise ValueError (int16 (fs_mask entry)) ;;
  let result := Z.land fuse_value mask in
  if 0 <? Z.of_nat (List.length (fs_values entry))
  then
    trailing_zero <- or_diverge (count_trailing_zero fuel mask) ;;
    parse_fuse_values fuse_name entry (Z.shiftr result trailing_zero)
      (fs_values entry) output
  else
    if Z.land result mask =? mask
    then ret (dict_set output fuse_name
                (mkDecoded (fs_caption entry) "Unprogrammed" (VInt 1) (fs_mask entry)))
    else ret (dict_set output fuse_name
                (mkDecoded (fs_caption entry) "Programmed" (VInt 0) (fs_mask entry))).

(** [parse_fuse(fuse_dict, fuse_value)] *)
Definition parse_fuse (fuel : nat) (fuse_dict : dict fuse_spec) (fuse_value : Z)
  : M (dict decoded) :=
  for_items fuse_dict
    (fun fuse_name _ output => parse_fuse_entry fuel fuse_dict fuse_value fuse_name output)
    [].

Definition read_low_fuse : list Byte.byte := [Byte.x50; Byte.x00; Byte.x00].
Definition read_high_fuse : list Byte.byte := [Byte.x58; Byte.x08; Byte.x00].
Definition read_extended_fuse : list Byte.byte := [Byte.x50; Byte.x08; Byte.x00].
Definition read_lockbits_cmd : list Byte.byte := [Byte.x58; Byte.x00; Byte.x00].

(** One of the four blocks of [read_fuses] and [read_lockbits]:

<<
  if len(device[group]) > 0:
      spi_interface.transmit(command)
      byte = spi_interface.receive(1)[0]
      self.logger.handle("... (Byte value: {})".format(hex(byte)), self.logger.RESULT)
      self.print_table(self.parse_fuse(device[group], byte), headers)
>>
*)
Definition read_group (fuel : nat) (group : dict fuse_spec) (command : list Byte.byte)
  (title : string) (headers : list string) : M unit :=
  if 0 <? Z.of_nat (List.length group)
  then
    spi_transmit command ;;;
    bs <- spi_receive 1 ;;
    byte <- bytes_head bs ;;
    logger_handle (title ++ " (Byte value: " ++ hex byte ++ ")")%string RESULT ;;;
    data <- parse_fuse fuel group byte ;;
    print_table data headers
  else ret tt.

Definition fuse_headers : list string := ["Fuse name"; "Status"; "Value"; "Mask"].
Definition lock_headers : list string := ["Lock bit name"; "Status"; "Value"; "Mask"].

(** [read_fuses(spi_interface, device)] *)
Definition read_fuses (fuel : nat) (device : device_spec) : M unit :=
  read_group fuel (fuse_low device) read_low_fuse "Low fuse settings" fuse_headers ;;;
  read_group fuel (fuse_high device) read_high_fuse "High fuse settings" fuse_headers ;;;
  read_group fuel (fuse_extended device) read_extended_fuse "Extended fuse settings"
    fuse_headers.

(** [read_lockbits(spi_interface, device)] *)
Definition read_lockbits (fuel : nat) (device : device_spec) : M unit :=
  read_group fuel (lock_bits device) read_lockbits_cmd "Lock bits settings" lock_headers.

(** *** Tables the decoder can work on

    Every literal of the table is read by [int], and the mask of a fuse
    with ["values"] is not 0. *)
Definition value_ok (descr : fuse_value_spec) : bool :=
  match int16 (ev_value descr) with
  | Some _ => true
  | None => false
  end.

(** No entry of [items] carries [code], and all of them are read. *)
Definition no_match (code : Z) (items : dict fuse_value_spec) : bool :=
  forallb (fun kv =>
             match int16 (ev_value (snd kv)) with
             | Some v => negb (v =? code)
             | None => false
             end) items.

Definition entry_ok (entry : fuse_spec) : bool :=
  match int16 (fs_mask entry) with
  | None => false
  | Some mask =>
      match fs_values entry with
      | [] => true
      | items => negb (mask =? 0) && forallb (fun kv => value_ok (snd kv)) items
      end
  end.

Definition table_ok (fuse_dict : dict fuse_spec) : bool :=
  forallb (fun kv => entry_ok (snd kv)) fuse_dict.

(** A budget that lets [count_trailing_zero] finish on every mask of the
    table: the largest [bit_length]. *)
Definition entry_fuel (entry : fuse_spec) : nat :=
  match int16 (fs_mask entry) with
  | Some mask => Z.to_nat (bit_length mask)
  | None => O
  end.

Definition table_fuel (fuse_dict : dict fuse_spec) : nat :=
  fold_right (fun kv n => Nat.max (entry_fuel (snd kv)) n) O fuse_dict.

(** The SPI traffic of one block of [read_fuses] or [read_lockbits]. *)
Definition exchange (group : dict fuse_spec) (command : list Byte.byte)
  : list spi_event :=
  if 0 <? Z.of_nat (List.length group) then [Transmit command; Receive 1] else [].

End Decoder.

(** ** The programming session of [process]

    [process] drives the reset line of the target through a GPIO and
    configures the SPI bus before it reads the fuses.  The session keeps,
    next to the world of the methods above, the order of what happened on
    the wires: the GPIO writes, the configuration of the bus, the pause, and
    every call on the SPI interface. *)

Inductive direction : Type := INPUT | OUTPUT.

Inductive wire_event : Type :=
| SetDirection (pin : Z) (dir : direction)
| SetStatus (pin : Z) (status : Z)
| Configure (bus : Z) (baudrate : Z)
| Sleep (milliseconds : Z)
| OnSpi (e : spi_event).

Record session : Type := mkSession {
  host : world;
  wires : list wire_event
}.

Definition P (A : Type) : Type := session -> session * res A.

Definition pret {A : Type} (a : A) : P A := fun s => (s, Ok a).

Definition pbind {A B : Type} (m : P A) (f : A -> P B) : P B :=
  fun s =>
    match m s with
    | (s', Ok a) => f a s'
    | (s', Raise e) => (s', Raise e)
    | (s', Diverge) => (s', Diverge)
    end.

Declare Scope session_scope.
Delimit Scope session_scope with session.
Notation "x <- m ;; k" := (pbind m (fun x => k))
  (at level 61, m at next level, right associativity) : session_scope.
Notation "m ;;; k" := (pbind m (fun _ => k))
  (at level 61, right associativity) : session_scope.

Definition wire (e : wire_event) : P unit :=
  fun s => (mkSession (host s) (wires s ++ [e]), Ok tt).

(** A method of the class run inside a session: the calls it makes on the
    SPI interface are put on the wires, in their order. *)
Definition lift {A : Type} (m : M A) : P A :=
  fun s =>
    let (w', r) := m (host s) in
    (mkSession w'
       (wires s ++ map OnSpi (skipn (List.length (spi (host s))) (spi w'))),
     r).

Definition enable_mem_access_cmd : list Byte.byte :=
  [Byte.xac; Byte.x53; Byte.x00; Byte.x00].

Section Session.

Variable int16 : string -> option Z.

(** [self.get_device_id(spi_bus, reset_line, spi_baudrate)]: the run of the
    device-identification module, which is not part of this module; it
    gives the description of the device, or [None]. *)
Variable get_device_id : Z -> Z -> Z -> P (option device_spec).

(** [process()], with the values of the options ["spi_bus"], ["reset_line"]
    and ["spi_baudrate"]. *)
Definition process (fuel : nat) (spi_bus reset_line spi_baudrate : Z) : P unit :=
  (device <- get_device_id spi_bus reset_line spi_baudrate ;;
   match device with
   | Some device =>
       wire (SetDirection reset_line OUTPUT) ;;;
       wire (SetStatus reset_line 1) ;;;
       wire (Configure spi_bus spi_baudrate) ;;;
       lift (logger_handle "Enable Memory Access..." INFO) ;;;
       wire (SetStatus reset_line 0) ;;;
       lift (spi_transmit enable_mem_access_cmd) ;;;
       wire (Sleep 500) ;;;
       lift (read_fuses int16 fuel device) ;;;
       lift (read_lockbits int16 fuel device) ;;;
       wire (SetStatus reset_line 1)
   | None => pret tt
   end)%session.

End Session.


Section Stored.

Variable int16 : string -> option Z.

(** The dictionaries the two branches of the loop body of [parse_fuse] can
    store for [entry] and the byte [b]: the caption and the mask of the
    entry, with "Unprogrammed" and 1 or "Programmed" and 0 when the entry
    has no ["values"], and with the caption and the literal of one of the
    ["values"] that carries the bits of the byte otherwise. *)
Definition stored_for (fuel : nat) (entry : fuse_spec) (b : Z) (r : decoded) : Prop :=
  out_descr r = fs_caption entry /\
  out_mask r = fs_mask entry /\
  exists m,
    int16 (fs_mask entry) = Some m /\
    match fs_values entry with
    | [] =>
        (Z.land b m = m /\ out_value_descr r = "Unprogrammed" /\ out_value r = VInt 1) \/
        (Z.land b m <> m /\ out_value_descr r = "Programmed" /\ out_value r = VInt 0)
    | items =>
        exists tz k descr,
          count_trailing_zero fuel m = Some tz /\
          In (k, descr) items /\
          int16 (ev_value descr) = Some (Z.shiftr (Z.land b m) tz) /\
          out_value_descr r = ev_caption descr /\
          out_value r = VStr (ev_value descr)
    end.

End Stored.

(** ** A reading of hexadecimal literals for the examples *)

Fixpoint hex_digits (s : string) (acc : N) : option N :=
  match s with
  | EmptyString => Some acc
  | String c s' =>
      match HexString.ascii_to_digit c with
      | Some d => hex_digits s' (16 * acc + d)%N
      | None => None
      end
  end.

(** [int(s, 16)] on the literals found in device tables: hexadecimal digits
    with or without the prefix [0x] or [0X]; any other string is refused.
    (Python also takes a sign, surrounding blanks and underscores between
    digits; no example below uses them.) *)
Definition int_hex (s : string) : option Z :=
  let digits :=
    match s with
    | String "0" (String "x" s') => s'
    | String "0" (String "X" s') => s'
    | _ => s
    end in
  match digits with
  | EmptyString => None
  | _ => option_map Z.of_N (hex_digits digits 0)
  end.

(** The tables of the scenarios of the specification. *)
Definition lock_table : dict fuse_spec :=
  [("LOCK1", mkFuse "Lock bit 1" "0x01" []);
   ("LOCK2", mkFuse "Lock bit 2" "0x02" [])].

Definition sut_cksel_table : dict fuse_spec :=
  [("SUT_CKSEL",
    mkFuse "Select Clock Source" "0x0F"
      [("EXTOSC", mkValue "0x02" "Ext Osc"); ("INTRC", mkValue "0x04" "Int RC")])].

(** A table whose only fuse has the mask 0 and no ["values"], and one whose
    second fuse has the mask 0 and ["values"]. *)
Definition zero_mask_table : dict fuse_spec :=
  [("LOCK1", mkFuse "Lock bit 1" "0x00" [])].

Definition zero_mask_enum_table : dict fuse_spec :=
  [("LOCK1", mkFuse "Lock bit 1" "0x01" []);
   ("BODLEVEL", mkFuse "Brown-out level" "0x00" [("OFF", mkValue "0x00" "Disabled")])].

(** A table whose fuse lists the code 2 twice. *)
Definition twice_table : dict fuse_spec :=
  [("SUT_CKSEL",
    mkFuse "Select Clock Source" "0x0F"
      [("EXTOSC", mkValue "0x02" "Ext Osc"); ("INTRC", mkValue "0x04" "Int RC");
       ("EXTCLK", mkValue "0x02" "Ext Clock")])].

(** A table with a fuse that has ["values"] between two that have none. *)
Definition mixed_table : dict fuse_spec :=
  [("LOCK1", mkFuse "Lock bit 1" "0x10" []);
   ("SUT_CKSEL",
    mkFuse "Select Clock Source" "0x0F"
      [("EXTOSC", mkValue "0x02" "Ext Osc"); ("INTRC", mkValue "0x04" "Int RC")]);
   ("LOCK2", mkFuse "Lock bit 2" "0x20" [])].

(** A device with low and high fuses and lock bits, and no extended fuse. *)
Definition small_device : device_spec :=
  mkDevice sut_cksel_table lock_table [] lock_table.

(** A table whose second mask is no hexadecimal literal, and one with a
    value whose literal is none. *)
Definition unreadable_mask_table : dict fuse_spec :=
  [("LOCK1", mkFuse "Lock bit 1" "0x01" []);
   ("JTAGEN", mkFuse "JTAG enable" "zz" []);
   ("LOCK2", mkFuse "Lock bit 2" "0x02" [])].

Definition unreadable_value_table : dict fuse_spec :=
  [("SUT_CKSEL",
    mkFuse "Select Clock Source" "0x0F"
      [("EXTOSC", mkValue "0x02" "Ext Osc"); ("RSVD", mkValue "reserved" "Reserved");
       ("INTRC", mkValue "0x04" "Int RC")])].

(** A device whose three fuse bytes and lock bits have a table, and one whose
    high fuse table has the unreadable mask. *)
Definition full_device : device_spec :=
  mkDevice sut_cksel_table lock_table mixed_table lock_table.

Definition faulty_device : device_spec :=
  mkDevice sut_cksel_table unreadable_mask_table [] lock_table.

(** A world in which nothing has happened yet. *)
Definition quiet (answers : list Byte.byte) : world := mkWorld [] [] answers 80 [].

(** A device identification that touches nothing and names [device], and a
    session in which nothing has happened yet. *)
Definition identified (device : option device_spec)
  : Z -> Z -> Z -> P (option device_spec) :=
  fun _ _ _ => pret device.

Definition fresh_session (answers : list Byte.byte) : session :=
  mkSession (quiet answers) [].

(** * Properties *)

(** ** [count_trailing_zero] *)

Lemma land_1 (x : Z) : Z.land x 1 = x mod 2.
Proof. change 1 with (Z.ones 1) at 1. now rewrite Z.land_ones. Qed.

Lemma shiftr_1 (x : Z) : Z.shiftr x 1 = x / 2.
Proof. now rewrite Z.shiftr_div_pow2. Qed.

(** The loop test, read arithmetically. *)
Lemma loop_test_even (x : Z) : (Z.land x 1 =? 0) = true -> x = 2 * Z.shiftr x 1.
Proof.
  rewrite Z.eqb_eq, land_1, shiftr_1. intros H.
  pose proof (Z.div_mod x 2). lia.
Qed.

(** A larger budget does not change a result already reached. *)
Lemma count_trailing_zero_loop_mono (fuel fuel' : nat) (x count r : Z) :
  count_trailing_zero_loop fuel x count = Some r ->
  (fuel <= fuel')%nat ->
  count_trailing_zero_loop fuel' x count = Some r.
Proof.
  revert fuel' x count. induction fuel as [|fuel IH]; intros fuel' x count H Hle.
  - discriminate H.
  - destruct fuel' as [|fuel']; [lia|]. simpl in *.
    destruct (Z.land x 1 =? 0); [|exact H].
    apply IH; [exact H | lia].
Qed.

(** The loop leaves on every [x] other than 0, after at most
    [Z.log2 (Z.abs x)] shifts. *)
Lemma count_trailing_zero_loop_ends (fuel : nat) :
  forall x count, x <> 0 -> Z.log2 (Z.abs x) < Z.of_nat fuel ->
  exists n, 0 <= n <= Z.log2 (Z.abs x) /\
            count_trailing_zero_loop fuel x count = Some (count + n).
Proof.
  induction fuel as [|fuel IH]; intros x count Hx Hlog.
  - pose proof (Z.log2_nonneg (Z.abs x)). lia.
  - simpl. destruct (Z.land x 1 =? 0) eqn:Htest.
    + apply loop_test_even in Htest. set (t := Z.shiftr x 1) in *.
      assert (Ht : t <> 0) by lia.
      assert (Hlog2 : Z.log2 (Z.abs x) = Z.succ (Z.log2 (Z.abs t))).
      { replace (Z.abs x) with (2 * Z.abs t) by lia. apply Z.log2_double. lia. }
      destruct (IH t (count + 1) Ht) as [n [Hn Hrun]]; [lia|].
      exists (n + 1). split; [lia|]. rewrite Hrun. f_equal. lia.
    + exists 0. split; [|f_equal; lia].
      pose proof (Z.log2_nonneg (Z.abs x)). lia.
Qed.

(** On [x = 0] the loop never leaves. *)
Lemma count_trailing_zero_loop_zero (fuel : nat) :
  forall count, count_trailing_zero_loop fuel 0 count = None.
Proof. induction fuel as [|fuel IH]; intros count; [reflexivity | apply IH]. Qed.

Lemma count_trailing_zero_zero (fuel : nat) : count_trailing_zero fuel 0 = None.
Proof. apply count_trailing_zero_loop_zero. Qed.

(** One evaluation of the loop test. *)
Lemma count_trailing_zero_loop_S (fuel : nat) (x count : Z) :
  count_trailing_zero_loop (S fuel) x count =
  if Z.land x 1 =? 0
  then count_trailing_zero_loop fuel (Z.shiftr x 1) (count + 1)
  else Some count.
Proof. reflexivity. Qed.

(** On an odd number shifted left [k] times the loop counts to [k]. *)
Lemma count_trailing_zero_loop_shifted (k extra : nat) :
  forall y count,
    count_trailing_zero_loop (S k + extra) ((2 * y + 1) * 2 ^ Z.of_nat k) count
    = Some (count + Z.of_nat k).
Proof.
  induction k as [|k IH]; intros y count;
    rewrite Nat.add_succ_l, count_trailing_zero_loop_S, land_1.
  - replace ((2 * y + 1) * 2 ^ Z.of_nat 0) with (1 + y * 2)
      by (change (Z.of_nat 0) with 0; rewrite Z.pow_0_r; lia).
    rewrite Z.mod_add by lia. cbn. f_equal. lia.
  - rewrite shiftr_1.
    replace ((2 * y + 1) * 2 ^ Z.of_nat (S k))
      with (((2 * y + 1) * 2 ^ Z.of_nat k) * 2)
      by (rewrite Nat2Z.inj_succ, Z.pow_succ_r by lia; lia).
    rewrite Z.mod_mul, Z.div_mul, Z.eqb_refl by lia.
    rewrite IH. f_equal. lia.
Qed.

(** C6: [count_trailing_zero] counts the zero bits below the lowest set bit:
    on an odd number shifted left [k] times it returns [k] as soon as the
    budget allows [k + 1] loop tests; in particular the masks 0x01, 0x02,
    0x04, 0x08, 0x10, 0x20, 0x40, 0x80 give 0, 1, 2, 3, 4, 5, 6, 7 and the
    mask 0x06 gives 1. *)
Theorem count_trailing_zero_correct :
  (forall (k extra : nat) (y : Z),
      count_trailing_zero (S k + extra) ((2 * y + 1) * 2 ^ Z.of_nat k)
      = Some (Z.of_nat k)) /\
  map (count_trailing_zero 8) [0x01; 0x02; 0x04; 0x08; 0x10; 0x20; 0x40; 0x80]
  = map Some [0; 1; 2; 3; 4; 5; 6; 7] /\
  count_trailing_zero 8 0x06 = Some 1.
Proof.
  split; [|split; reflexivity].
  intros k extra y. unfold count_trailing_zero.
  now rewrite count_trailing_zero_loop_shifted.
Qed.

(** C7: on every [x] other than 0 the loop of [count_trailing_zero] ends: one
    result [n] is returned for every budget of at least [bit_length x] loop
    tests, and [n], the number of times the body ran, is below
    [bit_length x]. *)
Theorem count_trailing_zero_terminates (x : Z) (Hx : x <> 0) :
  exists n, 0 <= n < bit_length x /\
    forall fuel, bit_length x <= Z.of_nat fuel -> count_trailing_zero fuel x = Some n.
Proof.
  assert (Hbl : bit_length x = Z.log2 (Z.abs x) + 1).
  { unfold bit_length. destruct (Z.eqb_spec x 0); [contradiction | reflexivity]. }
  pose proof (Z.log2_nonneg (Z.abs x)) as Hnn.
  destruct (count_trailing_zero_loop_ends (Z.to_nat (bit_length x)) x 0 Hx) as [n [Hn Hrun]];
    [lia|].
  exists n. split; [lia|]. intros fuel Hfuel. unfold count_trailing_zero.
  apply (count_trailing_zero_loop_mono (Z.to_nat (bit_length x))); [exact Hrun | lia].
Qed.

Lemma count_trailing_zero_terminates_witness :
  exists n, 0 <= n < bit_length 0x06 /\
    forall fuel, bit_length 0x06 <= Z.of_nat fuel -> count_trailing_zero fuel 0x06 = Some n.
Proof. apply (count_trailing_zero_terminates 0x06). discriminate. Defined.

(** ** Dictionaries *)

Lemma dict_get_app_l {V : Type} (d1 d2 : dict V) (k : string) :
  In k (keys d1) -> dict_get (d1 ++ d2) k = dict_get d1 k.
Proof.
  induction d1 as [|[k' v] d1 IH]; intros Hin; [contradiction|].
  simpl. destruct (String.eqb_spec k' k) as [_|Hne]; [reflexivity|].
  apply IH. destruct Hin as [Heq|Hin]; [contradiction | exact Hin].
Qed.

Lemma dict_get_app_r {V : Type} (d1 d2 : dict V) (k : string) :
  ~ In k (keys d1) -> dict_get (d1 ++ d2) k = dict_get d2 k.
Proof.
  induction d1 as [|[k' v] d1 IH]; intros Hnin; [reflexivity|].
  simpl in *. destruct (String.eqb_spec k' k) as [Heq|_].
  - exfalso. apply Hnin. now left.
  - apply IH. intros Hin. apply Hnin. now right.
Qed.

Lemma dict_get_absent {V : Type} (d : dict V) (k : string) :
  ~ In k (keys d) -> dict_get d k = None.
Proof.
  intros Hnin. rewrite <- (app_nil_r d). now rewrite dict_get_app_r.
Qed.

(** A key that is not in the dictionary yet is added after the others. *)
Lemma dict_set_fresh {V : Type} (d : dict V) (k : string) (v : V) :
  ~ In k (keys d) -> dict_set d k v = d ++ [(k, v)].
Proof.
  induction d as [|[k' v'] d IH]; intros Hnin; [reflexivity|].
  simpl in *. destruct (String.eqb_spec k' k) as [Heq|_].
  - exfalso. apply Hnin. now left.
  - f_equal. apply IH. intros Hin. apply Hnin. now right.
Qed.

Lemma keys_app {V : Type} (d1 d2 : dict V) : keys (d1 ++ d2) = keys d1 ++ keys d2.
Proof. apply map_app. Qed.

(** ** The monad *)

Lemma add_log_nil (w : world) : add_log w [] = w.
Proof. destruct w. unfold add_log. simpl. now rewrite app_nil_r. Qed.

Lemma add_log_app (w : world) (l1 l2 : list (string * level)) :
  add_log (add_log w l1) l2 = add_log w (l1 ++ l2).
Proof. unfold add_log. simpl. now rewrite app_assoc. Qed.

Lemma res_map_map {A B C : Type} (f : A -> B) (g : B -> C) (r : res A) :
  res_map g (res_map f r) = res_map (fun a => g (f a)) r.
Proof. now destruct r. Qed.

Lemma res_map_ext {A B : Type} (f g : A -> B) (r : res A) :
  (forall a, r = Ok a -> f a = g a) -> res_map f r = res_map g r.
Proof. destruct r; simpl; intros H; [now rewrite H | reflexivity..]. Qed.

Lemma for_items_app {V S : Type} (items1 items2 : dict V)
  (body : string -> V -> S -> M S) :
  forall s w,
    for_items (items1 ++ items2) body s w
    = bind (for_items items1 body s) (for_items items2 body) w.
Proof.
  induction items1 as [|[k v] items1 IH]; intros s w; [reflexivity|].
  simpl. unfold bind.
  destruct (body k v s w) as [w' [s'| |]]; [|reflexivity..].
  rewrite IH. reflexivity.
Qed.

Lemma for_items_ext {V S : Type} (items : dict V) (body body' : string -> V -> S -> M S) :
  (forall k v s w, In (k, v) items -> body k v s w = body' k v s w) ->
  forall s w, for_items items body s w = for_items items body' s w.
Proof.
  induction items as [|[k v] items IH]; intros Hext s w; [reflexivity|].
  simpl. unfold bind. rewrite (Hext k v s w) by now left.
  destruct (body' k v s w) as [w' [s'| |]]; [|reflexivity..].
  apply IH. intros k0 v0 s0 w0 Hin. apply Hext. now right.
Qed.

(** ** The shape of a decoding

    Whatever the table, [parse_fuse] only adds messages to the log, and
    neither the messages nor the outcome depend on the world or on the
    entries decoded before. *)

Section Shape.

Variable int16 : string -> option Z.

Lemma parse_fuse_values_shape (name : string) (entry : fuse_spec) (code : Z)
  (items : dict fuse_value_spec) :
  exists msgs r, forall out w,
    parse_fuse_values int16 name entry code items out w
    = (add_log w msgs, res_map (dict_store out name) r).
Proof.
  induction items as [|[k descr] items IH].
  - eexists [_], (Ok None). intros out w. reflexivity.
  - destruct (int16 (ev_value descr)) as [v|] eqn:Hv.
    + destruct (v =? code) eqn:Hcode.
      * exists [], (Ok (Some (mkDecoded (fs_caption entry) (ev_caption descr)
                                (VStr (ev_value descr)) (fs_mask entry)))).
        intros out w. cbn [parse_fuse_values]. unfold bind. rewrite Hv. cbn.
        now rewrite Hcode, add_log_nil.
      * destruct IH as [msgs [r IH]]. exists msgs, r. intros out w.
        cbn [parse_fuse_values]. unfold bind. rewrite Hv. cbn.
        rewrite Hcode. apply IH.
    + exists [], (Raise ValueError). intros out w.
      cbn [parse_fuse_values]. unfold bind. rewrite Hv. cbn.
      now rewrite add_log_nil.
Qed.

Lemma parse_fuse_entry_shape (fuel : nat) (d : dict fuse_spec) (b : Z) (name : string) :
  exists msgs r, forall out w,
    parse_fuse_entry int16 fuel d b name out w
    = (add_log w msgs, res_map (dict_store out name) r).
Proof.
  unfold parse_fuse_entry.
  destruct (dict_get d name) as [entry|];
    [|exists [], (Raise KeyError); intros out w; cbn; now rewrite add_log_nil].
  destruct (int16 (fs_mask entry)) as [m|] eqn:Hm;
    [|exists [], (Raise ValueError); intros out w; unfold bind; cbn; rewrite Hm; cbn;
      now rewrite add_log_nil].
  destruct (0 <? Z.of_nat (List.length (fs_values entry))) eqn:Hlen.
  - destruct (count_trailing_zero fuel m) as [tz|] eqn:Htz.
    + destruct (parse_fuse_values_shape name entry (Z.shiftr (Z.land b m) tz)
                  (fs_values entry)) as [msgs [r H]].
      exists msgs, r. intros out w. unfold bind; cbn. rewrite Hm; cbn.
      rewrite Hlen, Htz; cbn. apply H.
    + exists [], Diverge. intros out w. unfold bind; cbn. rewrite Hm; cbn.
      rewrite Hlen, Htz; cbn. now rewrite add_log_nil.
  - destruct (Z.land (Z.land b m) m =? m) eqn:Hbit.
    + exists [], (Ok (Some (mkDecoded (fs_caption entry) "Unprogrammed" (VInt 1)
                              (fs_mask entry)))).
      intros out w. unfold bind; cbn. rewrite Hm; cbn.
      rewrite Hlen, Hbit; cbn. now rewrite add_log_nil.
    + exists [], (Ok (Some (mkDecoded (fs_caption entry) "Programmed" (VInt 0)
                              (fs_mask entry)))).
      intros out w. unfold bind; cbn. rewrite Hm; cbn.
      rewrite Hlen, Hbit; cbn. now rewrite add_log_nil.
Qed.

Lemma keys_dict_store_nil (name : string) (o : option decoded) :
  incl (keys (dict_store [] name o)) [name].
Proof. destruct o; simpl; [apply incl_refl | apply incl_nil_l]. Qed.

Lemma dict_store_fresh (out : dict decoded) (name : string) (o : option decoded) :
  ~ In name (keys out) -> dict_store out name o = out ++ dict_store [] name o.
Proof.
  intros Hnin. destruct o; simpl; [now apply dict_set_fresh | now rewrite app_nil_r].
Qed.

(** The loop of [parse_fuse] over a part [items] of the table, started on
    an [output] whose keys are not among those still to come. *)
Lemma parse_fuse_loop_shape (fuel : nat) (d : dict fuse_spec) (b : Z)
  (items : dict fuse_spec) :
  NoDup (keys items) ->
  exists msgs r,
    (forall o, r = Ok o -> incl (keys o) (keys items)) /\
    forall out w,
      (forall k, In k (keys out) -> ~ In k (keys items)) ->
      for_items items
        (fun fuse_name _ output => parse_fuse_entry int16 fuel d b fuse_name output)
        out w
      = (add_log w msgs, res_map (app out) r).
Proof.
  induction items as [|[k v] items IH]; intros Hnd.
  - exists [], (Ok []). split; [intros o [= <-]; apply incl_refl|].
    intros out w _. simpl. unfold ret. now rewrite add_log_nil, app_nil_r.
  - inversion Hnd as [|k0 ks Hk Hnd' Heq]; subst.
    destruct (IH Hnd') as [msgs2 [r2 [Hkeys2 Hrun2]]].
    destruct (parse_fuse_entry_shape fuel d b k) as [msgs1 [r1 Hrun1]].
    destruct r1 as [o1|e|].
    + exists (msgs1 ++ msgs2), (res_map (app (dict_store [] k o1)) r2). split.
      * intros o Ho. destruct r2 as [o2| |]; [|discriminate..]. injection Ho as <-.
        rewrite keys_app. apply incl_app.
        -- apply incl_tran with [k]; [apply keys_dict_store_nil|].
           intros x [<-|[]]. now left.
        -- apply incl_tl. now apply Hkeys2.
      * intros out w Hout. cbn [for_items]. unfold bind. rewrite Hrun1. cbn [res_map].
        rewrite dict_store_fresh by (intros Hin; apply (Hout k Hin); now left).
        rewrite Hrun2, add_log_app, res_map_map.
        -- f_equal. apply res_map_ext. intros a _. now rewrite app_assoc.
        -- intros x Hx Hx'. rewrite keys_app in Hx. apply in_app_or in Hx.
           destruct Hx as [Hx|Hx].
           ++ apply (Hout x Hx). now right.
           ++ apply keys_dict_store_nil in Hx. destruct Hx as [<-|[]]. contradiction.
    + exists msgs1, (Raise e). split; [discriminate|].
      intros out w _. cbn [for_items]. unfold bind. now rewrite Hrun1.
    + exists msgs1, Diverge. split; [discriminate|].
      intros out w _. cbn [for_items]. unfold bind. now rewrite Hrun1.
Qed.

Lemma parse_fuse_shape (fuel : nat) (d : dict fuse_spec) (b : Z) :
  NoDup (keys d) ->
  exists msgs r,
    (forall o, r = Ok o -> incl (keys o) (keys d)) /\
    forall w, parse_fuse int16 fuel d b w = (add_log w msgs, r).
Proof.
  intros Hnd. destruct (parse_fuse_loop_shape fuel d b d Hnd) as [msgs [r [Hkeys Hrun]]].
  exists msgs, r. split; [exact Hkeys|]. intros w. unfold parse_fuse.
  rewrite Hrun by (intros k []). f_equal. now destruct r.
Qed.

End Shape.

(** ** Decoding a table piece by piece *)

Lemma NoDup_app_disjoint {A : Type} (l1 l2 : list A) :
  NoDup (l1 ++ l2) -> forall x, In x l1 -> ~ In x l2.
Proof.
  induction l1 as [|a l1 IH]; intros Hnd x Hin; [contradiction|].
  simpl in Hnd. inversion Hnd as [|a' l' Ha Hnd' Heq]; subst.
  destruct Hin as [<-|Hin].
  - intros Hin2. apply Ha. apply in_or_app. now right.
  - now apply IH.
Qed.

Lemma in_keys {V : Type} (d : dict V) (k : string) (v : V) : In (k, v) d -> In k (keys d).
Proof. intros Hin. apply (in_map fst) in Hin. exact Hin. Qed.

Section Pieces.

Variable int16 : string -> option Z.

(** The body of the loop only looks up its own key. *)
Lemma parse_fuse_entry_ext (fuel : nat) (d d' : dict fuse_spec) (b : Z) (name : string)
  (out : dict decoded) (w : world) :
  dict_get d name = dict_get d' name ->
  parse_fuse_entry int16 fuel d b name out w
  = parse_fuse_entry int16 fuel d' b name out w.
Proof. unfold parse_fuse_entry. now intros ->. Qed.

(** Decoding [d1 ++ d2] is decoding [d1], then [d2], and putting the two
    outputs one after the other. *)
Lemma parse_fuse_app (fuel : nat) (d1 d2 : dict fuse_spec) (b : Z) :
  NoDup (keys (d1 ++ d2)) ->
  forall w,
    parse_fuse int16 fuel (d1 ++ d2) b w
    = (o1 <- parse_fuse int16 fuel d1 b ;;
       o2 <- parse_fuse int16 fuel d2 b ;;
       ret (o1 ++ o2)) w.
Proof.
  intros Hnd w. rewrite keys_app in Hnd.
  pose proof (NoDup_app_remove_r _ _ Hnd) as Hnd1.
  pose proof (NoDup_app_remove_l _ _ Hnd) as Hnd2.
  pose proof (NoDup_app_disjoint _ _ Hnd) as Hdis.
  destruct (parse_fuse_loop_shape int16 fuel d1 b d1 Hnd1) as [msgs1 [r1 [Hkeys1 Hrun1]]].
  destruct (parse_fuse_loop_shape int16 fuel d2 b d2 Hnd2) as [msgs2 [r2 [_ Hrun2]]].
  unfold parse_fuse at 1. rewrite for_items_app.
  unfold bind at 1.
  rewrite (for_items_ext d1 _
             (fun fuse_name _ output => parse_fuse_entry int16 fuel d1 b fuse_name output))
    by (intros k v s w0 Hin; apply parse_fuse_entry_ext, dict_get_app_l;
        now apply in_keys with v).
  unfold bind at 1. unfold parse_fuse at 1.
  rewrite Hrun1 by (intros k []).
  destruct r1 as [o1|e|]; cbn [res_map app]; [|reflexivity..].
  rewrite (for_items_ext d2 _
             (fun fuse_name _ output => parse_fuse_entry int16 fuel d2 b fuse_name output))
    by (intros k v s w0 Hin; apply parse_fuse_entry_ext, dict_get_app_r;
        intros Hk; apply (Hdis k Hk); now apply in_keys with v).
  rewrite Hrun2
    by (intros k Hk Hk2; apply (Hkeys1 o1 eq_refl) in Hk; now apply (Hdis k Hk)).
  unfold bind, parse_fuse. rewrite Hrun2 by (intros k []).
  destruct r2 as [o2|e|]; reflexivity.
Qed.

(** Decoding a table of one entry is one run of the loop body. *)
Lemma parse_fuse_one (fuel : nat) (name : string) (entry : fuse_spec) (b : Z) (w : world) :
  parse_fuse int16 fuel [(name, entry)] b w
  = parse_fuse_entry int16 fuel [(name, entry)] b name [] w.
Proof.
  unfold parse_fuse. cbn [for_items]. unfold bind.
  destruct (parse_fuse_entry int16 fuel [(name, entry)] b name [] w) as [w' [o| |]];
    reflexivity.
Qed.

(** The three stages of decoding a table around one of its entries. *)
Lemma parse_fuse_split (fuel : nat) (pre post : dict fuse_spec) (name : string)
  (entry : fuse_spec) (b : Z) :
  NoDup (keys (pre ++ (name, entry) :: post)) ->
  forall w,
    parse_fuse int16 fuel (pre ++ (name, entry) :: post) b w
    = (o1 <- parse_fuse int16 fuel pre b ;;
       o <- parse_fuse int16 fuel [(name, entry)] b ;;
       o2 <- parse_fuse int16 fuel post b ;;
       ret (o1 ++ o ++ o2)) w.
Proof.
  intros Hnd w. rewrite parse_fuse_app by exact Hnd.
  unfold bind at 1 3.
  destruct (parse_fuse int16 fuel pre b w) as [w1 [o1|e|]]; [|reflexivity..].
  rewrite keys_app in Hnd. apply NoDup_app_remove_l in Hnd.
  change ((name, entry) :: post) with ([(name, entry)] ++ post) in *.
  unfold bind at 1. rewrite parse_fuse_app by exact Hnd.
  unfold bind.
  destruct (parse_fuse int16 fuel [(name, entry)] b w1) as [w2 [o|e|]]; [|reflexivity..].
  destruct (parse_fuse int16 fuel post b w2) as [w3 [o2|e|]]; reflexivity.
Qed.

End Pieces.

(** ** Decoding one entry *)

Lemma nonempty_test {A : Type} (l : list A) :
  (0 <? Z.of_nat (List.length l)) = match l with [] => false | _ :: _ => true end.
Proof. destruct l; reflexivity. Qed.

Lemma land_land (b m : Z) : Z.land (Z.land b m) m = Z.land b m.
Proof. now rewrite <- Z.land_assoc, Z.land_diag. Qed.

Section Entries.

Variable int16 : string -> option Z.

(** The search stops at the first entry that carries the code. *)
Lemma parse_fuse_values_found (name : string) (entry : fuse_spec) (code : Z)
  (before after : dict fuse_value_spec) (k : string) (descr : fuse_value_spec)
  (out : dict decoded) (w : world) :
  no_match int16 code before = true ->
  int16 (ev_value descr) = Some code ->
  parse_fuse_values int16 name entry code (before ++ (k, descr) :: after) out w
  = (w, Ok (dict_set out name
              (mkDecoded (fs_caption entry) (ev_caption descr)
                 (VStr (ev_value descr)) (fs_mask entry)))).
Proof.
  intros Hbefore Hdescr. induction before as [|[k' descr'] before IH].
  - cbn [app parse_fuse_values]. unfold bind. rewrite Hdescr. cbn.
    now rewrite Z.eqb_refl.
  - cbn [no_match forallb snd] in Hbefore. apply andb_prop in Hbefore.
    destruct Hbefore as [Hhead Hbefore].
    cbn [app parse_fuse_values]. unfold bind.
    destruct (int16 (ev_value descr')) as [v|]; [|discriminate]. cbn.
    apply negb_true_iff in Hhead. rewrite Hhead. now apply IH.
Qed.

(** The search that finds nothing logs the message and leaves [output]
    as it was. *)
Lemma parse_fuse_values_missing (name : string) (entry : fuse_spec) (code : Z)
  (items : dict fuse_value_spec) (out : dict decoded) (w : world) :
  no_match int16 code items = true ->
  parse_fuse_values int16 name entry code items out w
  = (add_log w [(("Invalid value for " ++ name ++ " ==> got: " ++ hex code)%string,
                 ERROR)],
     Ok out).
Proof.
  intros Hitems. induction items as [|[k' descr'] items IH]; [reflexivity|].
  cbn [no_match forallb snd] in Hitems. apply andb_prop in Hitems.
  destruct Hitems as [Hhead Hitems].
  cbn [parse_fuse_values]. unfold bind.
  destruct (int16 (ev_value descr')) as [v|]; [|discriminate]. cbn.
  apply negb_true_iff in Hhead. rewrite Hhead. now apply IH.
Qed.

(** When every literal is read, either some first entry carries the code
    or none does. *)
Lemma values_search (code : Z) (items : dict fuse_value_spec) :
  forallb (fun kv => value_ok int16 (snd kv)) items = true ->
  (exists before k descr after,
      items = before ++ (k, descr) :: after /\
      no_match int16 code before = true /\
      int16 (ev_value descr) = Some code) \/
  no_match int16 code items = true.
Proof.
  induction items as [|[k descr] items IH]; intros Hok; [now right|].
  cbn [forallb snd] in Hok. apply andb_prop in Hok. destruct Hok as [Hhead Hok].
  unfold value_ok in Hhead.
  destruct (int16 (ev_value descr)) as [v|] eqn:Hv; [|discriminate].
  destruct (Z.eqb_spec v code) as [->|Hne].
  - left. exists [], k, descr, items. now repeat split.
  - destruct (IH Hok) as [[before [k' [descr' [after [-> [Hb Hd]]]]]]|Hnone].
    + left. exists ((k, descr) :: before), k', descr', after.
      repeat split; [|exact Hd]. cbn [no_match forallb snd]. rewrite Hv.
      apply andb_true_intro. split; [|exact Hb].
      apply negb_true_iff. now apply Z.eqb_neq.
    + right. cbn [no_match forallb snd]. rewrite Hv.
      apply andb_true_intro. split; [|exact Hnone].
      apply negb_true_iff. now apply Z.eqb_neq.
Qed.

Lemma no_match_spec (code : Z) (items : dict fuse_value_spec) (k : string)
  (descr : fuse_value_spec) :
  no_match int16 code items = true -> In (k, descr) items ->
  int16 (ev_value descr) <> Some code.
Proof.
  unfold no_match. rewrite forallb_forall. intros Hall Hin Heq.
  specialize (Hall _ Hin). cbn [snd] in Hall. rewrite Heq in Hall.
  apply negb_true_iff in Hall. rewrite Z.eqb_refl in Hall. discriminate.
Qed.

(** A fuse without ["values"]. *)
Lemma parse_fuse_one_single (fuel : nat) (name : string) (entry : fuse_spec) (m b : Z)
  (w : world) :
  int16 (fs_mask entry) = Some m ->
  fs_values entry = [] ->
  parse_fuse int16 fuel [(name, entry)] b w
  = (w, Ok [(name,
             if Z.land b m =? m
             then mkDecoded (fs_caption entry) "Unprogrammed" (VInt 1) (fs_mask entry)
             else mkDecoded (fs_caption entry) "Programmed" (VInt 0) (fs_mask entry))]).
Proof.
  intros Hm Hvalues. rewrite parse_fuse_one. unfold parse_fuse_entry, bind.
  cbn [dict_get]. rewrite String.eqb_refl. cbn. rewrite Hm. cbn.
  rewrite Hvalues. cbn. rewrite land_land.
  destruct (Z.land b m =? m); reflexivity.
Qed.

(** A fuse with ["values"], once [count_trailing_zero] has returned. *)
Lemma parse_fuse_one_enum (fuel : nat) (name : string) (entry : fuse_spec) (m tz b : Z)
  (w : world) :
  int16 (fs_mask entry) = Some m ->
  fs_values entry <> [] ->
  count_trailing_zero fuel m = Some tz ->
  parse_fuse int16 fuel [(name, entry)] b w
  = parse_fuse_values int16 name entry (Z.shiftr (Z.land b m) tz) (fs_values entry) [] w.
Proof.
  intros Hm Hvalues Htz. rewrite parse_fuse_one. unfold parse_fuse_entry, bind.
  cbn [dict_get]. rewrite String.eqb_refl. cbn. rewrite Hm. cbn.
  rewrite nonempty_test. destruct (fs_values entry) as [|kv items]; [contradiction|].
  rewrite Htz. cbn [or_diverge ret].
  destruct (parse_fuse_values int16 name entry (Z.shiftr (Z.land b m) tz) (kv :: items)
              [] w) as [w' [o| |]]; reflexivity.
Qed.

(** A fuse with ["values"] and the mask 0: the call never comes back. *)
Lemma parse_fuse_one_zero_mask (fuel : nat) (name : string) (entry : fuse_spec) (b : Z)
  (w : world) :
  int16 (fs_mask entry) = Some 0 ->
  fs_values entry <> [] ->
  parse_fuse int16 fuel [(name, entry)] b w = (w, Diverge).
Proof.
  intros Hm Hvalues. rewrite parse_fuse_one. unfold parse_fuse_entry, bind.
  cbn [dict_get]. rewrite String.eqb_refl. cbn. rewrite Hm. cbn.
  rewrite nonempty_test. destruct (fs_values entry) as [|kv items]; [contradiction|].
  now rewrite count_trailing_zero_zero.
Qed.

End Entries.

(** ** Tables the decoder comes back from *)

Section Returns.

Variable int16 : string -> option Z.

Lemma table_ok_app (d1 d2 : dict fuse_spec) :
  table_ok int16 (d1 ++ d2) = table_ok int16 d1 && table_ok int16 d2.
Proof. apply forallb_app. Qed.

Lemma table_fuel_app (d1 d2 : dict fuse_spec) :
  table_fuel int16 (d1 ++ d2) = Nat.max (table_fuel int16 d1) (table_fuel int16 d2).
Proof.
  induction d1 as [|kv d1 IH]; [reflexivity|].
  cbn [app table_fuel fold_right]. fold (table_fuel int16 (d1 ++ d2)).
  fold (table_fuel int16 d1). rewrite IH. apply Nat.max_assoc.
Qed.

(** With a budget of [bit_length mask] loop tests [count_trailing_zero]
    returns on a mask other than 0. *)
Lemma count_trailing_zero_returns (fuel : nat) (m : Z) :
  m <> 0 -> (Z.to_nat (bit_length m) <= fuel)%nat ->
  exists tz, count_trailing_zero fuel m = Some tz.
Proof.
  intros Hm Hfuel. unfold bit_length in Hfuel.
  destruct (Z.eqb_spec m 0) as [|_]; [contradiction|].
  pose proof (Z.log2_nonneg (Z.abs m)).
  destruct (count_trailing_zero_loop_ends fuel m 0 Hm) as [n [_ Hn]]; [lia|].
  now exists (0 + n).
Qed.

Lemma parse_fuse_one_returns (fuel : nat) (name : string) (entry : fuse_spec) (b : Z) :
  entry_ok int16 entry = true ->
  (entry_fuel int16 entry <= fuel)%nat ->
  exists msgs o, forall w,
    parse_fuse int16 fuel [(name, entry)] b w = (add_log w msgs, Ok o).
Proof.
  unfold entry_ok, entry_fuel. intros Hok Hfuel.
  destruct (int16 (fs_mask entry)) as [m|] eqn:Hm; [|discriminate].
  destruct (fs_values entry) as [|kv items] eqn:Hvalues.
  - eexists [], _. intros w. rewrite add_log_nil.
    exact (parse_fuse_one_single int16 fuel name entry m b w Hm Hvalues).
  - apply andb_prop in Hok. destruct Hok as [Hzero Hitems].
    apply negb_true_iff, Z.eqb_neq in Hzero.
    destruct (count_trailing_zero_returns fuel m Hzero Hfuel) as [tz Htz].
    assert (Hne : fs_values entry <> []) by (rewrite Hvalues; discriminate).
    destruct (values_search int16 (Z.shiftr (Z.land b m) tz) (kv :: items) Hitems)
      as [[before [k [descr [after [Heq [Hb Hd]]]]]]|Hnone].
    + eexists [], _. intros w. rewrite add_log_nil.
      rewrite (parse_fuse_one_enum int16 fuel name entry m tz b w Hm Hne Htz).
      rewrite Hvalues, Heq. now apply parse_fuse_values_found.
    + eexists [_], _. intros w.
      rewrite (parse_fuse_one_enum int16 fuel name entry m tz b w Hm Hne Htz).
      rewrite Hvalues. now apply parse_fuse_values_missing.
Qed.

(** On a table that is in order [parse_fuse] returns an output whose keys
    are keys of the table, and only adds to the log. *)
Lemma parse_fuse_returns (fuel : nat) (d : dict fuse_spec) (b : Z) :
  NoDup (keys d) ->
  table_ok int16 d = true ->
  (table_fuel int16 d <= fuel)%nat ->
  exists msgs o,
    incl (keys o) (keys d) /\
    forall w, parse_fuse int16 fuel d b w = (add_log w msgs, Ok o).
Proof.
  intros Hnd Hok Hfuel.
  destruct (parse_fuse_shape int16 fuel d b Hnd) as [msgs [r [Hkeys Hrun]]].
  assert (Hret : forall w, exists w' o, parse_fuse int16 fuel d b w = (w', Ok o)).
  { clear msgs r Hkeys Hrun.
    induction d as [|[k entry] d IH]; intros w.
    - now exists w, [].
    - change ((k, entry) :: d) with ([(k, entry)] ++ d) in *.
      rewrite table_ok_app in Hok. apply andb_prop in Hok. destruct Hok as [Hok1 Hok2].
      rewrite table_fuel_app in Hfuel.
      rewrite parse_fuse_app by exact Hnd.
      destruct (parse_fuse_one_returns fuel k entry b) as [msgs1 [o1 Hrun1]].
      { cbn in Hok1. now rewrite andb_true_r in Hok1. }
      { cbn in Hfuel. lia. }
      rewrite keys_app in Hnd. apply NoDup_app_remove_l in Hnd.
      destruct (IH Hnd Hok2 ltac:(lia) (add_log w msgs1)) as [w2 [o2 Hrun2]].
      exists w2, (o1 ++ o2). unfold bind. now rewrite Hrun1, Hrun2. }
  destruct (Hret (mkWorld [] [] [] 0 [])) as [w' [o Ho]].
  rewrite Hrun in Ho. injection Ho as _ ->.
  exists msgs, o. split; [now apply Hkeys | exact Hrun].
Qed.

(** A table in order, decoded around one of its entries whose own decoding
    is known: the entries before and after are decoded as they are on
    their own, and the three outputs and logs follow one another. *)
Lemma parse_fuse_around (fuel : nat) (pre post : dict fuse_spec) (name : string)
  (entry : fuse_spec) (b : Z) (msgs : list (string * level)) (o : dict decoded) :
  NoDup (keys (pre ++ (name, entry) :: post)) ->
  table_ok int16 (pre ++ (name, entry) :: post) = true ->
  (table_fuel int16 (pre ++ (name, entry) :: post) <= fuel)%nat ->
  (forall w, parse_fuse int16 fuel [(name, entry)] b w = (add_log w msgs, Ok o)) ->
  exists msgs1 o1 msgs2 o2,
    (forall w, parse_fuse int16 fuel pre b w = (add_log w msgs1, Ok o1)) /\
    (forall w, parse_fuse int16 fuel post b w = (add_log w msgs2, Ok o2)) /\
    (forall w, parse_fuse int16 fuel (pre ++ (name, entry) :: post) b w
               = (add_log w (msgs1 ++ msgs ++ msgs2), Ok (o1 ++ o ++ o2))) /\
    ~ In name (keys o1) /\ ~ In name (keys o2).
Proof.
  intros Hnd Hok Hfuel Hone.
  pose proof Hnd as Hnd'. rewrite keys_app in Hnd'.
  pose proof (NoDup_app_remove_r _ _ Hnd') as Hnd1.
  pose proof (NoDup_app_disjoint _ _ Hnd') as Hdis.
  apply NoDup_app_remove_l in Hnd'. cbn [keys map fst] in Hnd'.
  inversion Hnd' as [|x l Hname Hnd2 Heq]; subst.
  rewrite table_ok_app in Hok. apply andb_prop in Hok. destruct Hok as [Hok1 Hok2].
  cbn [table_ok forallb] in Hok2. apply andb_prop in Hok2. destruct Hok2 as [_ Hok2].
  rewrite table_fuel_app in Hfuel. cbn [table_fuel fold_right] in Hfuel.
  fold (table_fuel int16 post) in Hfuel.
  destruct (parse_fuse_returns fuel pre b Hnd1 Hok1) as [msgs1 [o1 [Hkeys1 Hrun1]]];
    [lia|].
  destruct (parse_fuse_returns fuel post b Hnd2 Hok2) as [msgs2 [o2 [Hkeys2 Hrun2]]];
    [lia|].
  exists msgs1, o1, msgs2, o2. repeat split.
  - exact Hrun1.
  - exact Hrun2.
  - intros w. rewrite parse_fuse_split by exact Hnd. unfold bind.
    rewrite Hrun1, Hone, Hrun2. unfold ret. now rewrite !add_log_app.
  - intros Hin. apply Hkeys1 in Hin. apply (Hdis name Hin). now left.
  - intros Hin. apply Hkeys2 in Hin. contradiction.
Qed.

End Returns.

(** ** The decoder on the entries of a table *)

Section Fields.

Variable int16 : string -> option Z.

Lemma table_ok_entry (d : dict fuse_spec) (name : string) (entry : fuse_spec) :
  table_ok int16 d = true -> In (name, entry) d -> entry_ok int16 entry = true.
Proof.
  unfold table_ok. rewrite forallb_forall. intros Hall Hin. exact (Hall _ Hin).
Qed.

Lemma entry_ok_values (entry : fuse_spec) :
  entry_ok int16 entry = true ->
  forallb (fun kv => value_ok int16 (snd kv)) (fs_values entry) = true.
Proof.
  unfold entry_ok. destruct (int16 (fs_mask entry)); [|discriminate].
  destruct (fs_values entry); [reflexivity|].
  intros H. apply andb_prop in H. apply H.
Qed.

Lemma dict_get_middle (o1 o2 : dict decoded) (name : string) (r : decoded) :
  ~ In name (keys o1) -> dict_get (o1 ++ [(name, r)] ++ o2) name = Some r.
Proof.
  intros Hnin. rewrite dict_get_app_r by exact Hnin.
  cbn [app dict_get]. now rewrite String.eqb_refl.
Qed.

(** C1: in a table that is in order, a fuse with ["values"] whose bits
    [(b & mask) >> count_trailing_zero(mask)] are the code of one of its
    values is bound, in the output of [parse_fuse], to the caption and the
    literal of a value with that code, next to the fuse's own caption and
    mask. *)
Theorem enumerated_field_decoded (fuel : nat) (d : dict fuse_spec) (b : Z)
  (name : string) (entry : fuse_spec) (m tz : Z) :
  NoDup (keys d) ->
  table_ok int16 d = true ->
  (table_fuel int16 d <= fuel)%nat ->
  In (name, entry) d ->
  fs_values entry <> [] ->
  int16 (fs_mask entry) = Some m ->
  count_trailing_zero fuel m = Some tz ->
  (exists k descr, In (k, descr) (fs_values entry) /\
                   int16 (ev_value descr) = Some (Z.shiftr (Z.land b m) tz)) ->
  exists msgs out descr,
    (forall w, parse_fuse int16 fuel d b w = (add_log w msgs, Ok out)) /\
    In descr (map snd (fs_values entry)) /\
    int16 (ev_value descr) = Some (Z.shiftr (Z.land b m) tz) /\
    dict_get out name
    = Some (mkDecoded (fs_caption entry) (ev_caption descr) (VStr (ev_value descr))
              (fs_mask entry)).
Proof.
  intros Hnd Hok Hfuel Hin Hvalues Hm Htz [k0 [descr0 [Hin0 Hcode0]]].
  pose proof (entry_ok_values entry (table_ok_entry d name entry Hok Hin)) as Hitems.
  destruct (values_search int16 (Z.shiftr (Z.land b m) tz) (fs_values entry) Hitems)
    as [[before [k [descr [after [Heq [Hb Hd]]]]]]|Hnone];
    [|now elim (no_match_spec int16 _ _ _ _ Hnone Hin0)].
  destruct (in_split _ _ Hin) as [pre [post ->]].
  destruct (parse_fuse_around int16 fuel pre post name entry b []
              [(name, mkDecoded (fs_caption entry) (ev_caption descr)
                        (VStr (ev_value descr)) (fs_mask entry))] Hnd Hok Hfuel)
    as [msgs1 [o1 [msgs2 [o2 [_ [_ [Hrun [Hfresh _]]]]]]]].
  { intros w. rewrite add_log_nil.
    rewrite (parse_fuse_one_enum int16 fuel name entry m tz b w Hm Hvalues Htz).
    rewrite Heq. now apply parse_fuse_values_found. }
  eexists _, _, descr. split; [exact Hrun|]. repeat split.
  - rewrite Heq, map_app. apply in_or_app. right. now left.
  - exact Hd.
  - now apply dict_get_middle.
Qed.

(** C2: in a table that is in order, a fuse without ["values"] is always
    bound in the output of [parse_fuse]: to "Unprogrammed" and 1 when
    [b & mask == mask], to "Programmed" and 0 otherwise, and to
    "Unprogrammed" only in the first case. *)
Theorem single_bit_field_decoded (fuel : nat) (d : dict fuse_spec) (b : Z)
  (name : string) (entry : fuse_spec) (m : Z) :
  NoDup (keys d) ->
  table_ok int16 d = true ->
  (table_fuel int16 d <= fuel)%nat ->
  In (name, entry) d ->
  fs_values entry = [] ->
  int16 (fs_mask entry) = Some m ->
  exists msgs out,
    (forall w, parse_fuse int16 fuel d b w = (add_log w msgs, Ok out)) /\
    dict_get out name
    = Some (if Z.land b m =? m
            then mkDecoded (fs_caption entry) "Unprogrammed" (VInt 1) (fs_mask entry)
            else mkDecoded (fs_caption entry) "Programmed" (VInt 0) (fs_mask entry)) /\
    (dict_get out name
     = Some (mkDecoded (fs_caption entry) "Unprogrammed" (VInt 1) (fs_mask entry))
     <-> Z.land b m = m).
Proof.
  intros Hnd Hok Hfuel Hin Hvalues Hm.
  destruct (in_split _ _ Hin) as [pre [post ->]].
  destruct (parse_fuse_around int16 fuel pre post name entry b [] _ Hnd Hok Hfuel
              (fun w => eq_trans
                          (parse_fuse_one_single int16 fuel name entry m b w Hm Hvalues)
                          (f_equal (fun w' => (w', _)) (eq_sym (add_log_nil w)))))
    as [msgs1 [o1 [msgs2 [o2 [_ [_ [Hrun [Hfresh _]]]]]]]].
  eexists _, _. split; [exact Hrun|].
  rewrite dict_get_middle by exact Hfresh. split; [reflexivity|].
  destruct (Z.eqb_spec (Z.land b m) m) as [Heq|Hne]; split; intros H.
  - exact Heq.
  - reflexivity.
  - discriminate H.
  - contradiction.
Qed.

(** C5: a fuse without ["values"] whose mask is 0 does not make
    [parse_fuse] fail: whatever the byte, it is bound to "Unprogrammed" and
    1, and the entries before and after it are decoded as they are on
    their own. *)
Theorem zero_mask_single_bit_decoded (fuel : nat) (pre post : dict fuse_spec) (b : Z)
  (name : string) (entry : fuse_spec) :
  NoDup (keys (pre ++ (name, entry) :: post)) ->
  table_ok int16 (pre ++ (name, entry) :: post) = true ->
  (table_fuel int16 (pre ++ (name, entry) :: post) <= fuel)%nat ->
  fs_values entry = [] ->
  int16 (fs_mask entry) = Some 0 ->
  exists msgs1 o1 msgs2 o2,
    (forall w, parse_fuse int16 fuel pre b w = (add_log w msgs1, Ok o1)) /\
    (forall w, parse_fuse int16 fuel post b w = (add_log w msgs2, Ok o2)) /\
    (forall w,
        parse_fuse int16 fuel (pre ++ (name, entry) :: post) b w
        = (add_log w (msgs1 ++ msgs2),
           Ok (o1 ++ [(name, mkDecoded (fs_caption entry) "Unprogrammed" (VInt 1)
                               (fs_mask entry))] ++ o2))) /\
    dict_get (o1 ++ [(name, mkDecoded (fs_caption entry) "Unprogrammed" (VInt 1)
                              (fs_mask entry))] ++ o2) name
    = Some (mkDecoded (fs_caption entry) "Unprogrammed" (VInt 1) (fs_mask entry)).
Proof.
  intros Hnd Hok Hfuel Hvalues Hm.
  destruct (parse_fuse_around int16 fuel pre post name entry b []
              [(name, mkDecoded (fs_caption entry) "Unprogrammed" (VInt 1)
                        (fs_mask entry))] Hnd Hok Hfuel)
    as [msgs1 [o1 [msgs2 [o2 [Hrun1 [Hrun2 [Hrun [Hfresh _]]]]]]]].
  { intros w. rewrite add_log_nil.
    rewrite (parse_fuse_one_single int16 fuel name entry 0 b w Hm Hvalues).
    now rewrite Z.land_0_r. }
  exists msgs1, o1, msgs2, o2. repeat split; try assumption.
  now apply dict_get_middle.
Qed.

End Fields.

(** ** Codes that are not in the table, and codes that are there twice *)

Section Search.

Variable int16 : string -> option Z.

(** C3: in a table that is in order, a fuse with ["values"] none of which
    carries the code [(b & mask) >> count_trailing_zero(mask)] is left out
    of the output of [parse_fuse]; the call returns, its log gains exactly
    one message for this fuse, with the name of the fuse and the code, and
    the entries before and after the fuse are decoded as they are on their
    own, their outputs and messages in table order. *)
Theorem unmatched_code_skipped (fuel : nat) (pre post : dict fuse_spec) (b : Z)
  (name : string) (entry : fuse_spec) (m tz : Z) :
  NoDup (keys (pre ++ (name, entry) :: post)) ->
  table_ok int16 (pre ++ (name, entry) :: post) = true ->
  (table_fuel int16 (pre ++ (name, entry) :: post) <= fuel)%nat ->
  fs_values entry <> [] ->
  int16 (fs_mask entry) = Some m ->
  count_trailing_zero fuel m = Some tz ->
  (forall k descr, In (k, descr) (fs_values entry) ->
                   int16 (ev_value descr) <> Some (Z.shiftr (Z.land b m) tz)) ->
  exists msgs1 o1 msgs2 o2,
    (forall w, parse_fuse int16 fuel pre b w = (add_log w msgs1, Ok o1)) /\
    (forall w, parse_fuse int16 fuel post b w = (add_log w msgs2, Ok o2)) /\
    (forall w,
        parse_fuse int16 fuel (pre ++ (name, entry) :: post) b w
        = (add_log w
             (msgs1 ++
              [(("Invalid value for " ++ name ++ " ==> got: "
                 ++ hex (Z.shiftr (Z.land b m) tz))%string, ERROR)] ++
              msgs2),
           Ok (o1 ++ o2))) /\
    dict_get (o1 ++ o2) name = None.
Proof.
  intros Hnd Hok Hfuel Hvalues Hm Htz Hcodes.
  assert (Hin : In (name, entry) (pre ++ (name, entry) :: post))
    by (apply in_or_app; right; now left).
  pose proof (entry_ok_values int16 entry (table_ok_entry int16 _ name entry Hok Hin))
    as Hitems.
  destruct (values_search int16 (Z.shiftr (Z.land b m) tz) (fs_values entry) Hitems)
    as [[before [k [descr [after [Heq [_ Hd]]]]]]|Hnone].
  { elim (Hcodes k descr); [|exact Hd]. rewrite Heq. apply in_or_app. right. now left. }
  destruct (parse_fuse_around int16 fuel pre post name entry b
              [(("Invalid value for " ++ name ++ " ==> got: "
                 ++ hex (Z.shiftr (Z.land b m) tz))%string, ERROR)] [] Hnd Hok Hfuel)
    as [msgs1 [o1 [msgs2 [o2 [Hrun1 [Hrun2 [Hrun [Hfresh1 Hfresh2]]]]]]]].
  { intros w.
    rewrite (parse_fuse_one_enum int16 fuel name entry m tz b w Hm Hvalues Htz).
    now apply parse_fuse_values_missing. }
  exists msgs1, o1, msgs2, o2. repeat split; try assumption.
  apply dict_get_absent. rewrite keys_app. intros H. apply in_app_or in H. tauto.
Qed.

(** C8: when the ["values"] of a fuse carry the code of the byte more than
    once, the output of [parse_fuse] binds the fuse to the first of them in
    the order of the table; the fuse adds no message to the log and the
    call returns. *)
Theorem duplicate_code_first_wins (fuel : nat) (pre post : dict fuse_spec) (b : Z)
  (name : string) (entry : fuse_spec) (m tz : Z)
  (before after : dict fuse_value_spec) (k : string) (descr : fuse_value_spec) :
  NoDup (keys (pre ++ (name, entry) :: post)) ->
  table_ok int16 (pre ++ (name, entry) :: post) = true ->
  (table_fuel int16 (pre ++ (name, entry) :: post) <= fuel)%nat ->
  int16 (fs_mask entry) = Some m ->
  count_trailing_zero fuel m = Some tz ->
  fs_values entry = before ++ (k, descr) :: after ->
  no_match int16 (Z.shiftr (Z.land b m) tz) before = true ->
  int16 (ev_value descr) = Some (Z.shiftr (Z.land b m) tz) ->
  (exists k' descr', In (k', descr') after /\
                     int16 (ev_value descr') = Some (Z.shiftr (Z.land b m) tz)) ->
  exists msgs1 o1 msgs2 o2,
    (forall w, parse_fuse int16 fuel pre b w = (add_log w msgs1, Ok o1)) /\
    (forall w, parse_fuse int16 fuel post b w = (add_log w msgs2, Ok o2)) /\
    (forall w,
        parse_fuse int16 fuel (pre ++ (name, entry) :: post) b w
        = (add_log w (msgs1 ++ msgs2),
           Ok (o1 ++ [(name, mkDecoded (fs_caption entry) (ev_caption descr)
                               (VStr (ev_value descr)) (fs_mask entry))] ++ o2))) /\
    dict_get (o1 ++ [(name, mkDecoded (fs_caption entry) (ev_caption descr)
                              (VStr (ev_value descr)) (fs_mask entry))] ++ o2) name
    = Some (mkDecoded (fs_caption entry) (ev_caption descr) (VStr (ev_value descr))
              (fs_mask entry)).
Proof.
  intros Hnd Hok Hfuel Hm Htz Heq Hbefore Hdescr _.
  assert (Hvalues : fs_values entry <> [])
    by (rewrite Heq; intros H; symmetry in H; now apply app_cons_not_nil in H).
  destruct (parse_fuse_around int16 fuel pre post name entry b []
              [(name, mkDecoded (fs_caption entry) (ev_caption descr)
                        (VStr (ev_value descr)) (fs_mask entry))] Hnd Hok Hfuel)
    as [msgs1 [o1 [msgs2 [o2 [Hrun1 [Hrun2 [Hrun [Hfresh _]]]]]]]].
  { intros w. rewrite add_log_nil.
    rewrite (parse_fuse_one_enum int16 fuel name entry m tz b w Hm Hvalues Htz).
    rewrite Heq. now apply parse_fuse_values_found. }
  exists msgs1, o1, msgs2, o2. repeat split; try assumption.
  now apply dict_get_middle.
Qed.

(** C4 (as the code has it): a table with a fuse that has ["values"] and
    the mask 0 is never decoded: wherever the fuse stands in the table and
    whatever the budget, [parse_fuse] does not return an output. *)
Theorem zero_mask_enumerated_never_decoded (fuel : nat) (d : dict fuse_spec) (b : Z)
  (name : string) (entry : fuse_spec) (w : world) :
  NoDup (keys d) ->
  In (name, entry) d ->
  fs_values entry <> [] ->
  int16 (fs_mask entry) = Some 0 ->
  returned (snd (parse_fuse int16 fuel d b w)) = false.
Proof.
  intros Hnd Hin Hvalues Hm.
  destruct (in_split _ _ Hin) as [pre [post ->]].
  rewrite parse_fuse_split by exact Hnd. unfold bind.
  destruct (parse_fuse int16 fuel pre b w) as [w1 [o1|e|]]; [|reflexivity..].
  now rewrite (parse_fuse_one_zero_mask int16 fuel name entry b w1 Hm Hvalues).
Qed.

End Search.

(** ** One table, one byte, one result *)

Lemma for_items_mono {V S : Type} (items : dict V) (body body' : string -> V -> S -> M S) :
  (forall k v s w w' r, body k v s w = (w', r) -> r <> Diverge -> body' k v s w = (w', r)) ->
  forall s w w' r,
    for_items items body s w = (w', r) -> r <> Diverge ->
    for_items items body' s w = (w', r).
Proof.
  intros Hbody. induction items as [|[k v] items IH]; intros s w w' r Hrun Hr.
  - exact Hrun.
  - cbn [for_items] in *. unfold bind in *.
    destruct (body k v s w) as [w1 r1] eqn:Hstep.
    assert (Hr1 : r1 <> Diverge).
    { intros ->. injection Hrun as _ <-. now apply Hr. }
    rewrite (Hbody k v s w w1 r1 Hstep Hr1).
    destruct r1 as [s1|e|]; [now apply IH | exact Hrun | exact Hrun].
Qed.

Section Determinism.

Variable int16 : string -> option Z.

(** A larger budget does not change a decoding that came to an end. *)
Lemma parse_fuse_entry_mono (fuel fuel' : nat) (d : dict fuse_spec) (b : Z)
  (name : string) (out : dict decoded) (w w' : world) (r : res (dict decoded)) :
  (fuel <= fuel')%nat ->
  parse_fuse_entry int16 fuel d b name out w = (w', r) -> r <> Diverge ->
  parse_fuse_entry int16 fuel' d b name out w = (w', r).
Proof.
  intros Hle. unfold parse_fuse_entry, bind.
  destruct (or_raise KeyError (dict_get d name) w) as [w1 [entry|e|]]; [|tauto..].
  destruct (or_raise ValueError (int16 (fs_mask entry)) w1) as [w2 [m|e|]]; [|tauto..].
  destruct (0 <? Z.of_nat (List.length (fs_values entry))); [|tauto].
  unfold count_trailing_zero.
  destruct (count_trailing_zero_loop fuel m 0) as [tz|] eqn:Htz.
  - now rewrite (count_trailing_zero_loop_mono fuel fuel' m 0 tz Htz Hle).
  - cbn. intros [= _ <-] Hr. now elim Hr.
Qed.

Lemma parse_fuse_mono (fuel fuel' : nat) (d : dict fuse_spec) (b : Z)
  (w w' : world) (r : res (dict decoded)) :
  (fuel <= fuel')%nat ->
  parse_fuse int16 fuel d b w = (w', r) -> r <> Diverge ->
  parse_fuse int16 fuel' d b w = (w', r).
Proof.
  intros Hle. unfold parse_fuse. apply for_items_mono.
  intros k v s w0 w0' r0. now apply parse_fuse_entry_mono.
Qed.

(** C9: the outcome of [parse_fuse] and the messages it adds to the log are
    the same in every world, and the same for every budget under which the
    call comes to an end: they depend on the table and the byte alone. *)
Theorem parse_fuse_deterministic (fuel1 fuel2 : nat) (d : dict fuse_spec) (b : Z) :
  NoDup (keys d) ->
  exists msgs r,
    (forall w, parse_fuse int16 fuel1 d b w = (add_log w msgs, r)) /\
    (forall w, r <> Diverge -> snd (parse_fuse int16 fuel2 d b w) <> Diverge ->
               parse_fuse int16 fuel2 d b w = (add_log w msgs, r)).
Proof.
  intros Hnd.
  destruct (parse_fuse_shape int16 fuel1 d b Hnd) as [msgs1 [r1 [_ Hrun1]]].
  destruct (parse_fuse_shape int16 fuel2 d b Hnd) as [msgs2 [r2 [_ Hrun2]]].
  destruct (parse_fuse_shape int16 (Nat.max fuel1 fuel2) d b Hnd) as [msgs [r [_ Hrun]]].
  exists msgs1, r1. split; [exact Hrun1|]. intros w Hr1 Hr2.
  rewrite Hrun2 in Hr2 |- *. cbn [snd] in Hr2.
  pose proof (parse_fuse_mono fuel1 (Nat.max fuel1 fuel2) d b w _ _
                (Nat.le_max_l _ _) (Hrun1 w) Hr1) as H1.
  pose proof (parse_fuse_mono fuel2 (Nat.max fuel1 fuel2) d b w _ _
                (Nat.le_max_r _ _) (Hrun2 w) Hr2) as H2.
  rewrite Hrun in H1, H2. injection H1 as H1 <-. injection H2 as H2 <-.
  apply app_inv_head in H1, H2. now subst.
Qed.

End Determinism.

(** ** The SPI traffic of [read_fuses] and [read_lockbits] *)

Section Traffic.

Variable int16 : string -> option Z.

(** [parse_fuse] leaves the SPI interface alone, whatever the table. *)
Lemma parse_fuse_loop_spi (fuel : nat) (d : dict fuse_spec) (b : Z)
  (items : dict fuse_spec) :
  forall out w,
    spi (fst (for_items items
                (fun fuse_name _ output =>
                   parse_fuse_entry int16 fuel d b fuse_name output) out w))
    = spi w.
Proof.
  induction items as [|[k v] items IH]; intros out w; [reflexivity|].
  cbn [for_items]. unfold bind.
  destruct (parse_fuse_entry_shape int16 fuel d b k) as [msgs [r Hrun]].
  rewrite Hrun. destruct r as [o|e|]; cbn [res_map]; [|reflexivity..].
  now rewrite IH.
Qed.

Lemma parse_fuse_spi (fuel : nat) (d : dict fuse_spec) (b : Z) (w : world) :
  spi (fst (parse_fuse int16 fuel d b w)) = spi w.
Proof. apply parse_fuse_loop_spi. Qed.

(** One block sends its command and asks for one byte when the table of
    the group is not empty, and does nothing on the interface otherwise;
    this does not depend on how the block ends. *)
Lemma read_group_spi (fuel : nat) (group : dict fuse_spec) (command : list Byte.byte)
  (title : string) (headers : list string) (w : world) :
  spi (fst (read_group int16 fuel group command title headers w))
  = spi w ++ exchange group command.
Proof.
  unfold read_group, exchange.
  destruct (0 <? Z.of_nat (List.length group)); [|cbn; now rewrite app_nil_r].
  unfold bind, spi_transmit, spi_receive. cbn [rx spi logged t_width printed].
  rewrite <- app_assoc. cbn [app].
  destruct (firstn (Z.to_nat 1) (rx w)) as [|byte bs]; [reflexivity|].
  cbn [bytes_head ret logger_handle add_log spi].
  match goal with
  | |- context [parse_fuse int16 fuel group ?v ?w0] =>
      pose proof (parse_fuse_spi fuel group v w0) as Hspi;
      destruct (parse_fuse int16 fuel group v w0) as [w1 [data|e|]]
  end; cbn [fst spi] in Hspi |- *; cbn; exact Hspi.
Qed.

(** C10: [read_fuses] puts on the SPI interface, for each of the groups low
    fuse, high fuse and extended fuse whose table is not empty and in this
    order, the command of the group (50 00 00, 58 08 00, 50 08 00) followed
    by one request for one byte, and nothing for a group whose table is
    empty; a run that does not return stops after the exchange of one of the
    groups.  [read_lockbits] does the same with the command 58 00 00 for the
    lock bits, however it ends. *)
Theorem spi_commands (fuel : nat) (device : device_spec) (w : world) :
  let low := exchange (fuse_low device) [Byte.x50; Byte.x00; Byte.x00] in
  let high := exchange (fuse_high device) [Byte.x58; Byte.x08; Byte.x00] in
  let extended := exchange (fuse_extended device) [Byte.x50; Byte.x08; Byte.x00] in
  let lock := exchange (lock_bits device) [Byte.x58; Byte.x00; Byte.x00] in
  (if returned (snd (read_fuses int16 fuel device w))
   then spi (fst (read_fuses int16 fuel device w)) = spi w ++ low ++ high ++ extended
   else spi (fst (read_fuses int16 fuel device w)) = spi w ++ low \/
        spi (fst (read_fuses int16 fuel device w)) = spi w ++ low ++ high \/
        spi (fst (read_fuses int16 fuel device w)) = spi w ++ low ++ high ++ extended) /\
  spi (fst (read_lockbits int16 fuel device w)) = spi w ++ lock.
Proof.
  intros low high extended lock. split; [|apply read_group_spi].
  unfold read_fuses, bind.
  pose proof (read_group_spi fuel (fuse_low device) read_low_fuse
                "Low fuse settings" fuse_headers w) as Hlow.
  fold low in Hlow.
  destruct (read_group int16 fuel (fuse_low device) read_low_fuse
              "Low fuse settings" fuse_headers w) as [wl rl].
  cbn [fst] in Hlow.
  destruct rl as [[]|e|]; [|now left..].
  pose proof (read_group_spi fuel (fuse_high device) read_high_fuse
                "High fuse settings" fuse_headers wl) as Hhigh.
  fold high in Hhigh.
  destruct (read_group int16 fuel (fuse_high device) read_high_fuse
              "High fuse settings" fuse_headers wl) as [wh rh].
  cbn [fst] in Hhigh. rewrite Hlow, <- app_assoc in Hhigh.
  destruct rh as [[]|e|]; [|right; now left..].
  pose proof (read_group_spi fuel (fuse_extended device) read_extended_fuse
                "Extended fuse settings" fuse_headers wh) as Hext.
  fold extended in Hext.
  destruct (read_group int16 fuel (fuse_extended device) read_extended_fuse
              "Extended fuse settings" fuse_headers wh) as [we re].
  cbn [fst] in Hext. rewrite Hhigh, <- !app_assoc in Hext.
  destruct re as [[]|e|]; cbn [snd returned fst]; [exact Hext | right; now right..].
Qed.

End Traffic.

(** ** The theorems on the tables of the scenarios *)

Ltac nodup_keys :=
  cbn; repeat (constructor; [cbn; intuition discriminate|]); constructor.

Lemma enumerated_field_decoded_witness :
  exists msgs out descr,
    (forall w, parse_fuse int_hex 8 sut_cksel_table 0x02 w = (add_log w msgs, Ok out)) /\
    In descr (map snd [("EXTOSC", mkValue "0x02" "Ext Osc");
                       ("INTRC", mkValue "0x04" "Int RC")]) /\
    int_hex (ev_value descr) = Some (Z.shiftr (Z.land 0x02 0x0F) 0) /\
    dict_get out "SUT_CKSEL"
    = Some (mkDecoded "Select Clock Source" (ev_caption descr) (VStr (ev_value descr))
              "0x0F").
Proof.
  apply (enumerated_field_decoded int_hex 8 sut_cksel_table 0x02 "SUT_CKSEL"
           (mkFuse "Select Clock Source" "0x0F"
              [("EXTOSC", mkValue "0x02" "Ext Osc"); ("INTRC", mkValue "0x04" "Int RC")])
           0x0F 0).
  - nodup_keys.
  - reflexivity.
  - apply Nat.leb_le. reflexivity.
  - now left.
  - discriminate.
  - reflexivity.
  - reflexivity.
  - exists "EXTOSC", (mkValue "0x02" "Ext Osc"). split; [now left | reflexivity].
Defined.

Lemma single_bit_field_decoded_witness :
  exists msgs out,
    (forall w, parse_fuse int_hex 8 lock_table 0xFF w = (add_log w msgs, Ok out)) /\
    dict_get out "LOCK2"
    = Some (if Z.land 0xFF 0x02 =? 0x02
            then mkDecoded "Lock bit 2" "Unprogrammed" (VInt 1) "0x02"
            else mkDecoded "Lock bit 2" "Programmed" (VInt 0) "0x02") /\
    (dict_get out "LOCK2" = Some (mkDecoded "Lock bit 2" "Unprogrammed" (VInt 1) "0x02")
     <-> Z.land 0xFF 0x02 = 0x02).
Proof.
  apply (single_bit_field_decoded int_hex 8 lock_table 0xFF "LOCK2"
           (mkFuse "Lock bit 2" "0x02" []) 0x02).
  - nodup_keys.
  - reflexivity.
  - apply Nat.leb_le. reflexivity.
  - right. now left.
  - reflexivity.
  - reflexivity.
Defined.

Lemma unmatched_code_skipped_witness :
  exists msgs1 o1 msgs2 o2,
    (forall w, parse_fuse int_hex 8 [("LOCK1", mkFuse "Lock bit 1" "0x10" [])] 0x1F w
               = (add_log w msgs1, Ok o1)) /\
    (forall w, parse_fuse int_hex 8 [("LOCK2", mkFuse "Lock bit 2" "0x20" [])] 0x1F w
               = (add_log w msgs2, Ok o2)) /\
    (forall w,
        parse_fuse int_hex 8 mixed_table 0x1F w
        = (add_log w
             (msgs1 ++
              [(("Invalid value for " ++ "SUT_CKSEL" ++ " ==> got: "
                 ++ hex (Z.shiftr (Z.land 0x1F 0x0F) 0))%string, ERROR)] ++
              msgs2),
           Ok (o1 ++ o2))) /\
    dict_get (o1 ++ o2) "SUT_CKSEL" = None.
Proof.
  apply (unmatched_code_skipped int_hex 8
           [("LOCK1", mkFuse "Lock bit 1" "0x10" [])]
           [("LOCK2", mkFuse "Lock bit 2" "0x20" [])] 0x1F "SUT_CKSEL"
           (mkFuse "Select Clock Source" "0x0F"
              [("EXTOSC", mkValue "0x02" "Ext Osc"); ("INTRC", mkValue "0x04" "Int RC")])
           0x0F 0).
  - nodup_keys.
  - reflexivity.
  - apply Nat.leb_le. reflexivity.
  - discriminate.
  - reflexivity.
  - reflexivity.
  - intros k descr [H|[H|[]]]; injection H as _ <-; discriminate.
Defined.

(** The same run, evaluated: the fuse is missing from the output, the two
    others are there, and the log has the one message. *)
Example mixed_table_run :
  parse_fuse int_hex 8 mixed_table 0x1F (quiet [])
  = (add_log (quiet []) [("Invalid value for SUT_CKSEL ==> got: 0xf", ERROR)],
     Ok [("LOCK1", mkDecoded "Lock bit 1" "Unprogrammed" (VInt 1) "0x10");
         ("LOCK2", mkDecoded "Lock bit 2" "Programmed" (VInt 0) "0x20")]).
Proof. reflexivity. Qed.

Lemma zero_mask_single_bit_decoded_witness :
  exists msgs1 o1 msgs2 o2,
    (forall w, parse_fuse int_hex 8 [] 0xA5 w = (add_log w msgs1, Ok o1)) /\
    (forall w, parse_fuse int_hex 8 [] 0xA5 w = (add_log w msgs2, Ok o2)) /\
    (forall w,
        parse_fuse int_hex 8 zero_mask_table 0xA5 w
        = (add_log w (msgs1 ++ msgs2),
           Ok (o1 ++ [("LOCK1", mkDecoded "Lock bit 1" "Unprogrammed" (VInt 1) "0x00")]
                  ++ o2))) /\
    dict_get (o1 ++ [("LOCK1", mkDecoded "Lock bit 1" "Unprogrammed" (VInt 1) "0x00")]
                 ++ o2) "LOCK1"
    = Some (mkDecoded "Lock bit 1" "Unprogrammed" (VInt 1) "0x00").
Proof.
  apply (zero_mask_single_bit_decoded int_hex 8 [] [] 0xA5 "LOCK1"
           (mkFuse "Lock bit 1" "0x00" [])).
  - nodup_keys.
  - reflexivity.
  - apply Nat.leb_le. reflexivity.
  - reflexivity.
  - reflexivity.
Defined.

Lemma duplicate_code_first_wins_witness :
  exists msgs1 o1 msgs2 o2,
    (forall w, parse_fuse int_hex 8 [] 0x02 w = (add_log w msgs1, Ok o1)) /\
    (forall w, parse_fuse int_hex 8 [] 0x02 w = (add_log w msgs2, Ok o2)) /\
    (forall w,
        parse_fuse int_hex 8 twice_table 0x02 w
        = (add_log w (msgs1 ++ msgs2),
           Ok (o1 ++ [("SUT_CKSEL",
                       mkDecoded "Select Clock Source" "Ext Osc" (VStr "0x02") "0x0F")]
                  ++ o2))) /\
    dict_get (o1 ++ [("SUT_CKSEL",
                      mkDecoded "Select Clock Source" "Ext Osc" (VStr "0x02") "0x0F")]
                 ++ o2) "SUT_CKSEL"
    = Some (mkDecoded "Select Clock Source" "Ext Osc" (VStr "0x02") "0x0F").
Proof.
  apply (duplicate_code_first_wins int_hex 8 [] [] 0x02 "SUT_CKSEL"
           (mkFuse "Select Clock Source" "0x0F"
              [("EXTOSC", mkValue "0x02" "Ext Osc"); ("INTRC", mkValue "0x04" "Int RC");
               ("EXTCLK", mkValue "0x02" "Ext Clock")])
           0x0F 0 [] [("INTRC", mkValue "0x04" "Int RC");
                      ("EXTCLK", mkValue "0x02" "Ext Clock")]
           "EXTOSC" (mkValue "0x02" "Ext Osc")).
  - nodup_keys.
  - reflexivity.
  - apply Nat.leb_le. reflexivity.
  - reflexivity.
  - reflexivity.
  - reflexivity.
  - reflexivity.
  - reflexivity.
  - exists "EXTCLK", (mkValue "0x02" "Ext Clock"). split; [right; now left | reflexivity].
Defined.

(** C4, as the specification states it, fails on the code: the table whose
    only fuse has the mask 0 and no ["values"] is decoded, the call returns
    and the fuse is in the output; and on the table whose second fuse has
    the mask 0 and ["values"] nothing is raised: the call is still in
    [count_trailing_zero] when the budget is used up. *)
Lemma zero_mask_not_rejected :
  int_hex "0x00" = Some 0 /\
  parse_fuse int_hex 8 zero_mask_table 0xFF (quiet [])
  = (quiet [], Ok [("LOCK1", mkDecoded "Lock bit 1" "Unprogrammed" (VInt 1) "0x00")]) /\
  parse_fuse int_hex 8 zero_mask_enum_table 0xFF (quiet []) = (quiet [], Diverge).
Proof. repeat split. Qed.

Lemma zero_mask_enumerated_never_decoded_witness :
  returned (snd (parse_fuse int_hex 8 zero_mask_enum_table 0xFF (quiet []))) = false.
Proof.
  apply (zero_mask_enumerated_never_decoded int_hex 8 zero_mask_enum_table 0xFF
           "BODLEVEL"
           (mkFuse "Brown-out level" "0x00" [("OFF", mkValue "0x00" "Disabled")])
           (quiet [])).
  - nodup_keys.
  - right. now left.
  - discriminate.
  - reflexivity.
Defined.

Lemma parse_fuse_deterministic_witness :
  exists msgs r,
    (forall w, parse_fuse int_hex 4 sut_cksel_table 0x0F w = (add_log w msgs, r)) /\
    (forall w, r <> Diverge ->
               snd (parse_fuse int_hex 8 sut_cksel_table 0x0F w) <> Diverge ->
               parse_fuse int_hex 8 sut_cksel_table 0x0F w = (add_log w msgs, r)).
Proof. apply (parse_fuse_deterministic int_hex 4 8 sut_cksel_table 0x0F). nodup_keys. Defined.

(** A run on a device with low and high fuses and lock bits: three
    commands, each followed by the request for one byte. *)
Example small_device_traffic :
  let w1 := fst (read_fuses int_hex 8 small_device
                   (quiet [Byte.x02; Byte.xff; Byte.xfe])) in
  snd (read_fuses int_hex 8 small_device (quiet [Byte.x02; Byte.xff; Byte.xfe]))
  = Ok tt /\
  snd (read_lockbits int_hex 8 small_device w1) = Ok tt /\
  spi (fst (read_lockbits int_hex 8 small_device w1))
  = [Transmit [Byte.x50; Byte.x00; Byte.x00]; Receive 1;
     Transmit [Byte.x58; Byte.x08; Byte.x00]; Receive 1;
     Transmit [Byte.x58; Byte.x00; Byte.x00]; Receive 1].
Proof. repeat split. Qed.

(** * Further properties of the code *)

(** ** [count_trailing_zero], bit by bit *)

(** [count_trailing_zero] returns exactly on the integers other than 0: on 0
    the loop shifts 0 to 0 for ever, on every other integer some budget is
    enough. *)
Theorem count_trailing_zero_returns_iff (x : Z) :
  (exists fuel n, count_trailing_zero fuel x = Some n) <-> x <> 0.
Proof.
  split.
  - intros [fuel [n Hrun]] ->. unfold count_trailing_zero in Hrun.
    now rewrite count_trailing_zero_loop_zero in Hrun.
  - intros Hx. pose proof (Z.log2_nonneg (Z.abs x)) as Hlog.
    destruct (count_trailing_zero_loop_ends (Z.to_nat (Z.log2 (Z.abs x) + 1)) x 0 Hx)
      as [n [_ Hrun]]; [lia|].
    now exists (Z.to_nat (Z.log2 (Z.abs x) + 1)), (0 + n).
Qed.

Lemma odd_bit0 (x : Z) : (Z.land x 1 =? 0) = negb (Z.testbit x 0).
Proof.
  rewrite land_1, <- Z.bit0_mod. now destruct (Z.testbit x 0).
Qed.

(** The loop leaves with the count moved up by the position of the lowest
    set bit of [x]. *)
Lemma count_trailing_zero_loop_lowest_bit (fuel : nat) :
  forall x count r,
    count_trailing_zero_loop fuel x count = Some r ->
    count <= r /\
    Z.testbit x (r - count) = true /\
    forall i, 0 <= i < r - count -> Z.testbit x i = false.
Proof.
  induction fuel as [|fuel IH]; intros x count r Hrun; [discriminate|].
  rewrite count_trailing_zero_loop_S, odd_bit0 in Hrun.
  destruct (Z.testbit x 0) eqn:Hbit; cbn [negb] in Hrun.
  - injection Hrun as <-. rewrite Z.sub_diag. repeat split; [lia | exact Hbit | lia].
  - destruct (IH _ _ _ Hrun) as [Hle [Hset Hclear]].
    rewrite Z.shiftr_spec in Hset by lia.
    split; [lia|]. split.
    + now replace (r - count) with (r - (count + 1) + 1) by lia.
    + intros i Hi. destruct (Z.eq_dec i 0) as [->|Hne]; [exact Hbit|].
      replace i with (i - 1 + 1) by lia. rewrite <- Z.shiftr_spec by lia.
      apply Hclear. lia.
Qed.

(** What [count_trailing_zero] returns is the position of the lowest set bit
    of [x]: that bit is 1 and every bit below it is 0. *)
Theorem count_trailing_zero_lowest_bit (fuel : nat) (x n : Z) :
  count_trailing_zero fuel x = Some n ->
  0 <= n /\ Z.testbit x n = true /\ forall i, 0 <= i < n -> Z.testbit x i = false.
Proof.
  intros Hrun. apply count_trailing_zero_loop_lowest_bit in Hrun.
  now rewrite Z.sub_0_r in Hrun.
Qed.

Lemma count_trailing_zero_lowest_bit_witness :
  0 <= 3 /\ Z.testbit 0x28 3 = true /\ forall i, 0 <= i < 3 -> Z.testbit 0x28 i = false.
Proof. apply (count_trailing_zero_lowest_bit 8 0x28 3). reflexivity. Defined.

(** ** Nothing in the output that the table does not give *)

Lemma dict_get_in_keys {V : Type} (d : dict V) (k : string) (v : V) :
  dict_get d k = Some v -> In k (keys d).
Proof.
  induction d as [|[k' v'] d IH]; [discriminate|].
  cbn [dict_get keys map fst]. destruct (String.eqb_spec k' k) as [->|_].
  - now left.
  - intros H. right. now apply IH.
Qed.

Lemma in_keys_entry {V : Type} (d : dict V) (k : string) :
  In k (keys d) -> exists v, In (k, v) d.
Proof.
  unfold keys. rewrite in_map_iff. intros [[k' v] [Hk Hin]]. cbn in Hk. subst.
  now exists v.
Qed.

Section Sound.

Variable int16 : string -> option Z.

Lemma parse_fuse_values_sound (name : string) (entry : fuse_spec) (code : Z)
  (items : dict fuse_value_spec) (out o : dict decoded) (w w' : world) :
  parse_fuse_values int16 name entry code items out w = (w', Ok o) ->
  o = out \/
  exists k descr,
    In (k, descr) items /\ int16 (ev_value descr) = Some code /\
    o = dict_set out name
          (mkDecoded (fs_caption entry) (ev_caption descr) (VStr (ev_value descr))
             (fs_mask entry)).
Proof.
  induction items as [|[k descr] items IH]; cbn [parse_fuse_values]; unfold bind.
  - cbn. intros [= _ <-]. now left.
  - destruct (int16 (ev_value descr)) as [v|] eqn:Hv; cbn; [|discriminate].
    destruct (Z.eqb_spec v code) as [->|Hne].
    + intros [= _ <-]. right. exists k, descr. repeat split; [now left | exact Hv].
    + intros Hrun. destruct (IH Hrun) as [->|[k' [descr' [Hin [Hcode ->]]]]];
        [now left|].
      right. exists k', descr'. repeat split; [now right | exact Hcode].
Qed.

Lemma parse_fuse_one_sound (fuel : nat) (name : string) (entry : fuse_spec) (b : Z)
  (w w' : world) (o : dict decoded) :
  parse_fuse int16 fuel [(name, entry)] b w = (w', Ok o) ->
  o = [] \/ exists r, o = [(name, r)] /\ stored_for int16 fuel entry b r.
Proof.
  intros Hrun. unfold stored_for.
  destruct (int16 (fs_mask entry)) as [m|] eqn:Hm.
  2: { rewrite parse_fuse_one in Hrun. unfold parse_fuse_entry, bind in Hrun.
       cbn [dict_get] in Hrun. rewrite String.eqb_refl in Hrun.
       cbn [or_raise ret] in Hrun. rewrite Hm in Hrun. discriminate. }
  destruct (fs_values entry) as [|kv items] eqn:Hvalues.
  - rewrite (parse_fuse_one_single int16 fuel name entry m b w Hm Hvalues) in Hrun.
    injection Hrun as _ <-. right. eexists. split; [reflexivity|].
    destruct (Z.eqb_spec (Z.land b m) m) as [Heq|Hne]; cbn;
      repeat split; exists m; (split; [reflexivity|]); [left | right]; now repeat split.
  - assert (Hne : fs_values entry <> []) by (rewrite Hvalues; discriminate).
    destruct (count_trailing_zero fuel m) as [tz|] eqn:Htz.
    + rewrite (parse_fuse_one_enum int16 fuel name entry m tz b w Hm Hne Htz) in Hrun.
      apply parse_fuse_values_sound in Hrun.
      destruct Hrun as [->|[k [descr [Hin [Hcode ->]]]]]; [now left|].
      right. eexists. split; [reflexivity|]. cbn. repeat split.
      exists m. split; [reflexivity|]. exists tz, k, descr.
      rewrite Hvalues in Hin. now repeat split.
    + rewrite parse_fuse_one in Hrun. unfold parse_fuse_entry, bind in Hrun.
      cbn [dict_get] in Hrun. rewrite String.eqb_refl in Hrun.
      cbn [or_raise ret] in Hrun. rewrite Hm in Hrun. cbn [or_raise ret] in Hrun.
      rewrite nonempty_test, Hvalues, Htz in Hrun. discriminate.
Qed.

(** Whatever the table (its literals may be unreadable, its masks may be 0),
    when [parse_fuse] returns an output, each key of the output is the name
    of an entry of the table and is bound to a dictionary that one of the
    two branches of the loop body stores for this entry and the byte. *)
Theorem parse_fuse_sound (fuel : nat) (d : dict fuse_spec) (b : Z) (w w' : world)
  (out : dict decoded) (name : string) (r : decoded) :
  NoDup (keys d) ->
  parse_fuse int16 fuel d b w = (w', Ok out) ->
  dict_get out name = Some r ->
  exists entry, In (name, entry) d /\ stored_for int16 fuel entry b r.
Proof.
  intros Hnd Hrun Hget.
  destruct (parse_fuse_shape int16 fuel d b Hnd) as [msgs [r0 [Hkeys Hshape]]].
  rewrite Hshape in Hrun. injection Hrun as _ ->.
  pose proof (Hkeys out eq_refl name (dict_get_in_keys _ _ _ Hget)) as Hname.
  destruct (in_keys_entry _ _ Hname) as [entry Hin].
  exists entry. split; [exact Hin|].
  destruct (in_split _ _ Hin) as [pre [post ->]].
  pose proof (parse_fuse_split int16 fuel pre post name entry b Hnd w) as Hsplit.
  rewrite Hshape in Hsplit. unfold bind in Hsplit.
  pose proof Hnd as Hnd'. rewrite keys_app in Hnd'.
  pose proof (NoDup_app_remove_r _ _ Hnd') as Hnd1.
  pose proof (NoDup_app_disjoint _ _ Hnd') as Hdis.
  apply NoDup_app_remove_l in Hnd'. cbn [keys map fst] in Hnd'.
  inversion Hnd' as [|x l Hfresh Hnd2 Heq]; subst.
  destruct (parse_fuse_shape int16 fuel pre b Hnd1) as [m1 [r1 [Hkeys1 Hrun1]]].
  rewrite Hrun1 in Hsplit. destruct r1 as [o1|e|]; [|discriminate..].
  destruct (parse_fuse int16 fuel [(name, entry)] b (add_log w m1)) as [w2 [o|e|]]
    eqn:Hone; [|discriminate..].
  destruct (parse_fuse_shape int16 fuel post b Hnd2) as [m2 [r2 [Hkeys2 Hrun2]]].
  rewrite Hrun2 in Hsplit. destruct r2 as [o2|e|]; [|discriminate..].
  apply (f_equal snd) in Hsplit. cbn [snd] in Hsplit. injection Hsplit as ->.
  rewrite dict_get_app_r in Hget
    by (intros H; apply (Hkeys1 o1 eq_refl) in H; apply (Hdis name H); now left).
  destruct (parse_fuse_one_sound fuel name entry b _ _ _ Hone) as [->|[r' [-> Hr']]].
  - cbn [app] in Hget. rewrite dict_get_absent in Hget; [discriminate|].
    intros H. now apply (Hkeys2 o2 eq_refl) in H.
  - cbn [app dict_get] in Hget. rewrite String.eqb_refl in Hget.
    now injection Hget as <-.
Qed.

End Sound.

Lemma parse_fuse_sound_witness :
  exists entry,
    In ("SUT_CKSEL", entry) mixed_table /\
    stored_for int_hex 8 entry 0x12
      (mkDecoded "Select Clock Source" "Ext Osc" (VStr "0x02") "0x0F").
Proof.
  apply (parse_fuse_sound int_hex 8 mixed_table 0x12 (quiet []) (quiet [])
           [("LOCK1", mkDecoded "Lock bit 1" "Unprogrammed" (VInt 1) "0x10");
            ("SUT_CKSEL", mkDecoded "Select Clock Source" "Ext Osc" (VStr "0x02") "0x0F");
            ("LOCK2", mkDecoded "Lock bit 2" "Programmed" (VInt 0) "0x20")]
           "SUT_CKSEL").
  - cbn; repeat (constructor; [cbn; intuition discriminate|]); constructor.
  - reflexivity.
  - reflexivity.
Defined.

(** ** Tables in pieces, unreadable literals, and the count of the fuses *)

Section Parts.

Variable int16 : string -> option Z.

(** Decoding the table [d1 ++ d2] is decoding [d1], then [d2] in the world
    [d1] left, and returning the two outputs one after the other; when the
    decoding of [d1] does not return, [d2] is not looked at. *)
Theorem parse_fuse_concat (fuel : nat) (d1 d2 : dict fuse_spec) (b : Z) (w : world) :
  NoDup (keys (d1 ++ d2)) ->
  parse_fuse int16 fuel (d1 ++ d2) b w
  = (o1 <- parse_fuse int16 fuel d1 b ;;
     o2 <- parse_fuse int16 fuel d2 b ;;
     ret (o1 ++ o2)) w.
Proof. intros Hnd. now apply parse_fuse_app. Qed.

(** The entries before an entry on which the loop body does not return:
    they are decoded, their messages stay in the log, and the call ends as
    the loop body did. *)
Lemma parse_fuse_stops (fuel : nat) (pre post : dict fuse_spec) (name : string)
  (entry : fuse_spec) (b : Z) (msgs : list (string * level)) (r : res (dict decoded)) :
  NoDup (keys (pre ++ (name, entry) :: post)) ->
  table_ok int16 pre = true ->
  (table_fuel int16 pre <= fuel)%nat ->
  returned r = false ->
  (forall w, parse_fuse int16 fuel [(name, entry)] b w = (add_log w msgs, r)) ->
  exists msgs1 o1,
    (forall w, parse_fuse int16 fuel pre b w = (add_log w msgs1, Ok o1)) /\
    forall w, parse_fuse int16 fuel (pre ++ (name, entry) :: post) b w
              = (add_log w (msgs1 ++ msgs), r).
Proof.
  intros Hnd Hok Hfuel Hr Hone.
  pose proof Hnd as Hnd1. rewrite keys_app in Hnd1. apply NoDup_app_remove_r in Hnd1.
  destruct (parse_fuse_returns int16 fuel pre b Hnd1 Hok Hfuel) as [msgs1 [o1 [_ Hrun1]]].
  exists msgs1, o1. split; [exact Hrun1|]. intros w.
  rewrite parse_fuse_split by exact Hnd. unfold bind. rewrite Hrun1, Hone, add_log_app.
  destruct r as [o|e|]; [discriminate | reflexivity..].
Qed.

(** The same around an entry on which the loop body returns, when the
    entries before and after it are in order. *)
Lemma parse_fuse_around_parts (fuel : nat) (pre post : dict fuse_spec) (name : string)
  (entry : fuse_spec) (b : Z) (msgs : list (string * level)) (o : dict decoded) :
  NoDup (keys (pre ++ (name, entry) :: post)) ->
  table_ok int16 pre = true -> table_ok int16 post = true ->
  (table_fuel int16 pre <= fuel)%nat -> (table_fuel int16 post <= fuel)%nat ->
  (forall w, parse_fuse int16 fuel [(name, entry)] b w = (add_log w msgs, Ok o)) ->
  exists msgs1 o1 msgs2 o2,
    (forall w, parse_fuse int16 fuel pre b w = (add_log w msgs1, Ok o1)) /\
    (forall w, parse_fuse int16 fuel post b w = (add_log w msgs2, Ok o2)) /\
    (forall w, parse_fuse int16 fuel (pre ++ (name, entry) :: post) b w
               = (add_log w (msgs1 ++ msgs ++ msgs2), Ok (o1 ++ o ++ o2))) /\
    ~ In name (keys o1).
Proof.
  intros Hnd Hok1 Hok2 Hfuel1 Hfuel2 Hone.
  pose proof Hnd as Hnd'. rewrite keys_app in Hnd'.
  pose proof (NoDup_app_remove_r _ _ Hnd') as Hnd1.
  pose proof (NoDup_app_disjoint _ _ Hnd') as Hdis.
  apply NoDup_app_remove_l in Hnd'. cbn [keys map fst] in Hnd'.
  inversion Hnd' as [|x l Hname Hnd2 Heq]; subst.
  destruct (parse_fuse_returns int16 fuel pre b Hnd1 Hok1 Hfuel1)
    as [msgs1 [o1 [Hkeys1 Hrun1]]].
  destruct (parse_fuse_returns int16 fuel post b Hnd2 Hok2 Hfuel2)
    as [msgs2 [o2 [_ Hrun2]]].
  exists msgs1, o1, msgs2, o2. repeat split.
  - exact Hrun1.
  - exact Hrun2.
  - intros w. rewrite parse_fuse_split by exact Hnd. unfold bind.
    rewrite Hrun1, Hone, Hrun2. unfold ret. now rewrite !add_log_app.
  - intros Hin. apply Hkeys1 in Hin. apply (Hdis name Hin). now left.
Qed.

(** A mask that [int] does not read makes [parse_fuse] raise [ValueError]:
    the entries before it are decoded and their messages stay in the log,
    but no output comes back, whatever follows in the table. *)
Theorem unreadable_mask_raises (fuel : nat) (pre post : dict fuse_spec) (b : Z)
  (name : string) (entry : fuse_spec) :
  NoDup (keys (pre ++ (name, entry) :: post)) ->
  table_ok int16 pre = true ->
  (table_fuel int16 pre <= fuel)%nat ->
  int16 (fs_mask entry) = None ->
  exists msgs1 o1,
    (forall w, parse_fuse int16 fuel pre b w = (add_log w msgs1, Ok o1)) /\
    forall w, parse_fuse int16 fuel (pre ++ (name, entry) :: post) b w
              = (add_log w msgs1, Raise ValueError).
Proof.
  intros Hnd Hok Hfuel Hm.
  destruct (parse_fuse_stops fuel pre post name entry b [] (Raise ValueError)
              Hnd Hok Hfuel eq_refl) as [msgs1 [o1 [Hrun1 Hrun]]].
  { intros w. rewrite add_log_nil, parse_fuse_one. unfold parse_fuse_entry, bind.
    cbn [dict_get]. rewrite String.eqb_refl. cbn [or_raise ret]. now rewrite Hm. }
  exists msgs1, o1. split; [exact Hrun1|]. intros w.
  now rewrite Hrun, app_nil_r.
Qed.

Lemma parse_fuse_values_unreadable (name : string) (entry : fuse_spec) (code : Z)
  (before after : dict fuse_value_spec) (k : string) (descr : fuse_value_spec)
  (out : dict decoded) (w : world) :
  no_match int16 code before = true ->
  int16 (ev_value descr) = None ->
  parse_fuse_values int16 name entry code (before ++ (k, descr) :: after) out w
  = (w, Raise ValueError).
Proof.
  intros Hbefore Hdescr. induction before as [|[k' descr'] before IH].
  - cbn [app parse_fuse_values]. unfold bind. now rewrite Hdescr.
  - cbn [no_match forallb snd] in Hbefore. apply andb_prop in Hbefore.
    destruct Hbefore as [Hhead Hbefore].
    cbn [app parse_fuse_values]. unfold bind.
    destruct (int16 (ev_value descr')) as [v|]; [|discriminate]. cbn [or_raise ret].
    apply negb_true_iff in Hhead. rewrite Hhead. now apply IH.
Qed.

(** A literal of ["values"] that [int] does not read, met before any value
    that carries the bits of the byte, makes [parse_fuse] raise
    [ValueError]. *)
Theorem unreadable_value_raises (fuel : nat) (pre post : dict fuse_spec) (b : Z)
  (name : string) (entry : fuse_spec) (m tz : Z)
  (before after : dict fuse_value_spec) (k : string) (descr : fuse_value_spec) :
  NoDup (keys (pre ++ (name, entry) :: post)) ->
  table_ok int16 pre = true ->
  (table_fuel int16 pre <= fuel)%nat ->
  int16 (fs_mask entry) = Some m ->
  count_trailing_zero fuel m = Some tz ->
  fs_values entry = before ++ (k, descr) :: after ->
  no_match int16 (Z.shiftr (Z.land b m) tz) before = true ->
  int16 (ev_value descr) = None ->
  exists msgs1 o1,
    (forall w, parse_fuse int16 fuel pre b w = (add_log w msgs1, Ok o1)) /\
    forall w, parse_fuse int16 fuel (pre ++ (name, entry) :: post) b w
              = (add_log w msgs1, Raise ValueError).
Proof.
  intros Hnd Hok Hfuel Hm Htz Heq Hbefore Hdescr.
  assert (Hvalues : fs_values entry <> [])
    by (rewrite Heq; intros H; symmetry in H; now apply app_cons_not_nil in H).
  destruct (parse_fuse_stops fuel pre post name entry b [] (Raise ValueError)
              Hnd Hok Hfuel eq_refl) as [msgs1 [o1 [Hrun1 Hrun]]].
  { intros w. rewrite add_log_nil.
    rewrite (parse_fuse_one_enum int16 fuel name entry m tz b w Hm Hvalues Htz), Heq.
    now apply parse_fuse_values_unreadable. }
  exists msgs1, o1. split; [exact Hrun1|]. intros w.
  now rewrite Hrun, app_nil_r.
Qed.

(** The values listed after the first one that carries the bits of the byte
    are never read: whatever they are, even with literals [int] does not
    read, the fuse is bound to that first value and the call returns. *)
Theorem values_after_match_not_read (fuel : nat) (pre post : dict fuse_spec) (b : Z)
  (name : string) (entry : fuse_spec) (m tz : Z)
  (before after : dict fuse_value_spec) (k : string) (descr : fuse_value_spec) :
  NoDup (keys (pre ++ (name, entry) :: post)) ->
  table_ok int16 pre = true -> table_ok int16 post = true ->
  (table_fuel int16 pre <= fuel)%nat -> (table_fuel int16 post <= fuel)%nat ->
  int16 (fs_mask entry) = Some m ->
  count_trailing_zero fuel m = Some tz ->
  fs_values entry = before ++ (k, descr) :: after ->
  no_match int16 (Z.shiftr (Z.land b m) tz) before = true ->
  int16 (ev_value descr) = Some (Z.shiftr (Z.land b m) tz) ->
  exists msgs out,
    (forall w, parse_fuse int16 fuel (pre ++ (name, entry) :: post) b w
               = (add_log w msgs, Ok out)) /\
    dict_get out name
    = Some (mkDecoded (fs_caption entry) (ev_caption descr) (VStr (ev_value descr))
              (fs_mask entry)).
Proof.
  intros Hnd Hok1 Hok2 Hfuel1 Hfuel2 Hm Htz Heq Hbefore Hdescr.
  assert (Hvalues : fs_values entry <> [])
    by (rewrite Heq; intros H; symmetry in H; now apply app_cons_not_nil in H).
  destruct (parse_fuse_around_parts fuel pre post name entry b []
              [(name, mkDecoded (fs_caption entry) (ev_caption descr)
                        (VStr (ev_value descr)) (fs_mask entry))]
              Hnd Hok1 Hok2 Hfuel1 Hfuel2)
    as [msgs1 [o1 [msgs2 [o2 [_ [_ [Hrun Hfresh]]]]]]].
  { intros w. rewrite add_log_nil.
    rewrite (parse_fuse_one_enum int16 fuel name entry m tz b w Hm Hvalues Htz), Heq.
    now apply parse_fuse_values_found. }
  eexists _, _. split; [exact Hrun|]. now apply dict_get_middle.
Qed.

(** Every fuse of a table in order is accounted for once: it is either in
    the output or the subject of one message. *)
Lemma parse_fuse_one_accounts (fuel : nat) (name : string) (entry : fuse_spec) (b : Z) :
  entry_ok int16 entry = true ->
  (entry_fuel int16 entry <= fuel)%nat ->
  exists msgs o,
    (List.length o + List.length msgs = 1)%nat /\
    forall w, parse_fuse int16 fuel [(name, entry)] b w = (add_log w msgs, Ok o).
Proof.
  unfold entry_ok, entry_fuel. intros Hok Hfuel.
  destruct (int16 (fs_mask entry)) as [m|] eqn:Hm; [|discriminate].
  destruct (fs_values entry) as [|kv items] eqn:Hvalues.
  - eexists [], _. split; [|intros w; rewrite add_log_nil;
                            exact (parse_fuse_one_single int16 fuel name entry m b w
                                     Hm Hvalues)].
    reflexivity.
  - apply andb_prop in Hok. destruct Hok as [Hzero Hitems].
    apply negb_true_iff, Z.eqb_neq in Hzero.
    destruct (count_trailing_zero_returns fuel m Hzero Hfuel) as [tz Htz].
    assert (Hne : fs_values entry <> []) by (rewrite Hvalues; discriminate).
    destruct (values_search int16 (Z.shiftr (Z.land b m) tz) (kv :: items) Hitems)
      as [[before [k [descr [after [Heq [Hb Hd]]]]]]|Hnone].
    + eexists [], _. split; cycle 1.
      { intros w. rewrite add_log_nil.
        rewrite (parse_fuse_one_enum int16 fuel name entry m tz b w Hm Hne Htz).
        rewrite Hvalues, Heq. now apply parse_fuse_values_found. }
      reflexivity.
    + eexists [_], []. split; [reflexivity|]. intros w.
      rewrite (parse_fuse_one_enum int16 fuel name entry m tz b w Hm Hne Htz).
      rewrite Hvalues. now apply parse_fuse_values_missing.
Qed.

(** On a table in order, the fields of the output and the messages added to
    the log are together as many as the fuses of the table: no fuse is
    dropped without a message, and none is reported twice. *)
Theorem parse_fuse_accounts (fuel : nat) (d : dict fuse_spec) (b : Z) :
  NoDup (keys d) ->
  table_ok int16 d = true ->
  (table_fuel int16 d <= fuel)%nat ->
  exists msgs out,
    (forall w, parse_fuse int16 fuel d b w = (add_log w msgs, Ok out)) /\
    (List.length out + List.length msgs = List.length d)%nat.
Proof.
  induction d as [|[k entry] d IH]; intros Hnd Hok Hfuel.
  - exists [], []. split; [|reflexivity]. intros w. now rewrite add_log_nil.
  - change ((k, entry) :: d) with ([(k, entry)] ++ d) in *.
    rewrite table_ok_app in Hok. apply andb_prop in Hok. destruct Hok as [Hok1 Hok2].
    rewrite table_fuel_app in Hfuel.
    destruct (parse_fuse_one_accounts fuel k entry b) as [msgs1 [o1 [Hcount1 Hrun1]]].
    { cbn in Hok1. now rewrite andb_true_r in Hok1. }
    { cbn in Hfuel. lia. }
    pose proof Hnd as Hnd2. rewrite keys_app in Hnd2. apply NoDup_app_remove_l in Hnd2.
    destruct (IH Hnd2 Hok2 ltac:(lia)) as [msgs2 [o2 [Hrun2 Hcount2]]].
    exists (msgs1 ++ msgs2), (o1 ++ o2). split.
    + intros w. rewrite parse_fuse_app by exact Hnd. unfold bind.
      now rewrite Hrun1, Hrun2, add_log_app.
    + rewrite !length_app. cbn [List.length]. lia.
Qed.

End Parts.

Lemma parse_fuse_concat_witness :
  parse_fuse int_hex 8 (lock_table ++ sut_cksel_table) 0x0F (quiet [])
  = (o1 <- parse_fuse int_hex 8 lock_table 0x0F ;;
     o2 <- parse_fuse int_hex 8 sut_cksel_table 0x0F ;;
     ret (o1 ++ o2)) (quiet []).
Proof.
  apply (parse_fuse_concat int_hex 8 lock_table sut_cksel_table 0x0F (quiet [])).
  nodup_keys.
Defined.

Lemma unreadable_mask_raises_witness :
  exists msgs1 o1,
    (forall w, parse_fuse int_hex 8 [("LOCK1", mkFuse "Lock bit 1" "0x01" [])] 0xFF w
               = (add_log w msgs1, Ok o1)) /\
    forall w, parse_fuse int_hex 8 unreadable_mask_table 0xFF w
              = (add_log w msgs1, Raise ValueError).
Proof.
  apply (unreadable_mask_raises int_hex 8 [("LOCK1", mkFuse "Lock bit 1" "0x01" [])]
           [("LOCK2", mkFuse "Lock bit 2" "0x02" [])] 0xFF "JTAGEN"
           (mkFuse "JTAG enable" "zz" [])).
  - nodup_keys.
  - reflexivity.
  - apply Nat.leb_le. reflexivity.
  - reflexivity.
Defined.

Lemma unreadable_value_raises_witness :
  exists msgs1 o1,
    (forall w, parse_fuse int_hex 8 [] 0x04 w = (add_log w msgs1, Ok o1)) /\
    forall w, parse_fuse int_hex 8 unreadable_value_table 0x04 w
              = (add_log w msgs1, Raise ValueError).
Proof.
  apply (unreadable_value_raises int_hex 8 [] [] 0x04 "SUT_CKSEL"
           (mkFuse "Select Clock Source" "0x0F"
              [("EXTOSC", mkValue "0x02" "Ext Osc");
               ("RSVD", mkValue "reserved" "Reserved");
               ("INTRC", mkValue "0x04" "Int RC")])
           0x0F 0 [("EXTOSC", mkValue "0x02" "Ext Osc")]
           [("INTRC", mkValue "0x04" "Int RC")] "RSVD" (mkValue "reserved" "Reserved")).
  - nodup_keys.
  - reflexivity.
  - apply Nat.leb_le. reflexivity.
  - reflexivity.
  - reflexivity.
  - reflexivity.
  - reflexivity.
  - reflexivity.
Defined.

Lemma values_after_match_not_read_witness :
  exists msgs out,
    (forall w, parse_fuse int_hex 8 unreadable_value_table 0x02 w
               = (add_log w msgs, Ok out)) /\
    dict_get out "SUT_CKSEL"
    = Some (mkDecoded "Select Clock Source" "Ext Osc" (VStr "0x02") "0x0F").
Proof.
  apply (values_after_match_not_read int_hex 8 [] [] 0x02 "SUT_CKSEL"
           (mkFuse "Select Clock Source" "0x0F"
              [("EXTOSC", mkValue "0x02" "Ext Osc");
               ("RSVD", mkValue "reserved" "Reserved");
               ("INTRC", mkValue "0x04" "Int RC")])
           0x0F 0 []
           [("RSVD", mkValue "reserved" "Reserved"); ("INTRC", mkValue "0x04" "Int RC")]
           "EXTOSC" (mkValue "0x02" "Ext Osc")).
  - nodup_keys.
  - reflexivity.
  - reflexivity.
  - apply Nat.leb_le. reflexivity.
  - apply Nat.leb_le. reflexivity.
  - reflexivity.
  - reflexivity.
  - reflexivity.
  - reflexivity.
  - reflexivity.
Defined.

Lemma parse_fuse_accounts_witness :
  exists msgs out,
    (forall w, parse_fuse int_hex 8 mixed_table 0x1F w = (add_log w msgs, Ok out)) /\
    (List.length out + List.length msgs = List.length mixed_table)%nat.
Proof.
  apply (parse_fuse_accounts int_hex 8 mixed_table 0x1F).
  - nodup_keys.
  - reflexivity.
  - apply Nat.leb_le. reflexivity.
Defined.

(** ** The byte a block reads is the byte it decodes *)

Section Blocks.

Variable int16 : string -> option Z.


(** A block whose table is empty does nothing at all. *)
Lemma read_group_empty (fuel : nat) (command : list Byte.byte) (title : string)
  (headers : list string) (w : world) :
  read_group int16 fuel [] command title headers w = (w, Ok tt).
Proof. reflexivity. Qed.



End Blocks.



(** ** The wires during [process] *)

Lemma skipn_length_app {A : Type} (l x : list A) : skipn (List.length l) (l ++ x) = x.
Proof. induction l as [|a l IH]; [reflexivity | exact IH]. Qed.

(** A method that only adds [traffic] to the calls on the SPI interface puts
    [traffic] on the wires. *)
Lemma lift_traffic {A : Type} (m : M A) (s : session) (traffic : list spi_event) :
  spi (fst (m (host s))) = spi (host s) ++ traffic ->
  lift m s
  = (mkSession (fst (m (host s))) (wires s ++ map OnSpi traffic), snd (m (host s))).
Proof.
  unfold lift. destruct (m (host s)) as [w' r]. cbn [fst snd]. intros ->.
  now rewrite skipn_length_app.
Qed.

Section Wires.

Variable int16 : string -> option Z.
Variable get_device_id : Z -> Z -> Z -> P (option device_spec).

(** The calls of [read_fuses] on the SPI interface, however it ends. *)
Lemma read_fuses_traffic (fuel : nat) (device : device_spec) (w : world) :
  exists traffic,
    spi (fst (read_fuses int16 fuel device w)) = spi w ++ traffic /\
    (returned (snd (read_fuses int16 fuel device w)) = true ->
     traffic = exchange (fuse_low device) read_low_fuse
               ++ exchange (fuse_high device) read_high_fuse
               ++ exchange (fuse_extended device) read_extended_fuse).
Proof.
  unfold read_fuses, bind.
  pose proof (read_group_spi int16 fuel (fuse_low device) read_low_fuse
                "Low fuse settings" fuse_headers w) as Hlow.
  destruct (read_group int16 fuel (fuse_low device) read_low_fuse
              "Low fuse settings" fuse_headers w) as [wl rl].
  cbn [fst] in Hlow.
  destruct rl as [[]|e|]; [|eexists; split; [exact Hlow | discriminate]..].
  pose proof (read_group_spi int16 fuel (fuse_high device) read_high_fuse
                "High fuse settings" fuse_headers wl) as Hhigh.
  destruct (read_group int16 fuel (fuse_high device) read_high_fuse
              "High fuse settings" fuse_headers wl) as [wh rh].
  cbn [fst] in Hhigh. rewrite Hlow, <- app_assoc in Hhigh.
  destruct rh as [[]|e|]; [|eexists; split; [exact Hhigh | discriminate]..].
  pose proof (read_group_spi int16 fuel (fuse_extended device) read_extended_fuse
                "Extended fuse settings" fuse_headers wh) as Hext.
  destruct (read_group int16 fuel (fuse_extended device) read_extended_fuse
              "Extended fuse settings" fuse_headers wh) as [we re].
  cbn [fst] in Hext. rewrite Hhigh, <- !app_assoc in Hext.
  eexists. split; [exact Hext | reflexivity].
Qed.

(** What [process] puts on the wires once the device is known. *)
Lemma process_wires_general (fuel : nat) (spi_bus reset_line spi_baudrate : Z)
  (s s1 : session) (device : device_spec) :
  get_device_id spi_bus reset_line spi_baudrate s = (s1, Ok (Some device)) ->
  exists traffic,
    wires (fst (process int16 get_device_id fuel spi_bus reset_line spi_baudrate s))
    = wires s1
      ++ [SetDirection reset_line OUTPUT; SetStatus reset_line 1;
          Configure spi_bus spi_baudrate; SetStatus reset_line 0;
          OnSpi (Transmit enable_mem_access_cmd); Sleep 500]
      ++ map OnSpi traffic
      ++ (if returned
               (snd (process int16 get_device_id fuel spi_bus reset_line spi_baudrate s))
          then [SetStatus reset_line 1] else []) /\
    (returned (snd (process int16 get_device_id fuel spi_bus reset_line spi_baudrate s))
     = true ->
     traffic = exchange (fuse_low device) read_low_fuse
               ++ exchange (fuse_high device) read_high_fuse
               ++ exchange (fuse_extended device) read_extended_fuse
               ++ exchange (lock_bits device) read_lockbits_cmd).
Proof.
  intros Hdev.
  destruct (process int16 get_device_id fuel spi_bus reset_line spi_baudrate s)
    as [sf rf] eqn:Hres.
  cbn [fst snd]. unfold process, pbind in Hres. rewrite Hdev in Hres.
  unfold wire at 1 2 3 in Hres. cbn [host wires] in Hres.
  rewrite (lift_traffic (logger_handle "Enable Memory Access..." INFO) _ []) in Hres
    by (cbn; now rewrite app_nil_r).
  cbn [fst snd logger_handle] in Hres. unfold wire at 1 in Hres. cbn [host wires] in Hres.
  rewrite (lift_traffic (spi_transmit enable_mem_access_cmd) _
             [Transmit enable_mem_access_cmd]) in Hres by reflexivity.
  cbn [fst snd spi_transmit] in Hres. unfold wire at 1 in Hres. cbn [host wires] in Hres.
  match type of Hres with
  | context [lift (read_fuses int16 fuel device) ?s2] =>
      destruct (read_fuses_traffic fuel device (host s2)) as [t1 [Hspi1 Hall1]];
      rewrite (lift_traffic (read_fuses int16 fuel device) s2 t1 Hspi1) in Hres;
      cbn [host wires] in Hres, Hspi1, Hall1
  end.
  match type of Hspi1 with
  | context [read_fuses int16 fuel device ?w2] =>
      destruct (read_fuses int16 fuel device w2) as [w3 r3]
  end.
  cbn [fst snd] in Hres, Hspi1, Hall1.
  destruct r3 as [[]|e|].
  2, 3: injection Hres as <- <-; exists t1; cbn [wires returned];
        split; [now rewrite <- !app_assoc, app_nil_r | discriminate].
  pose proof (read_group_spi int16 fuel (lock_bits device) read_lockbits_cmd
                "Lock bits settings" lock_headers w3) as Hspi2.
  fold (read_lockbits int16 fuel device) in Hspi2.
  match type of Hres with
  | context [lift (read_lockbits int16 fuel device) ?s3] =>
      rewrite (lift_traffic (read_lockbits int16 fuel device) s3 _ Hspi2) in Hres
  end.
  cbn [host wires] in Hres.
  destruct (read_lockbits int16 fuel device w3) as [w4 r4]. cbn [fst snd] in Hres.
  exists (t1 ++ exchange (lock_bits device) read_lockbits_cmd).
  destruct r4 as [[]|e|]; cbn [wire host wires] in Hres; injection Hres as <- <-;
    cbn [wires returned]; split; try discriminate;
    try (rewrite map_app, <- !app_assoc; cbn [app map]; now rewrite ?app_nil_r).
  intros _. rewrite (Hall1 eq_refl). now rewrite <- !app_assoc.
Qed.

End Wires.

Section Reset.

Variable int16 : string -> option Z.
Variable get_device_id : Z -> Z -> Z -> P (option device_spec).

(** A run of [process] that returns, for an identified device: after the
    identification the wires carry, in this order, the reset line made an
    output and driven high, the configuration of the bus, the reset line
    driven low, the command AC 53 00 00, the pause of half a second, the
    exchanges of the groups that have a table (low, high and extended fuse,
    lock bits), and at the very end the reset line driven high again. *)
Theorem process_wires (fuel : nat) (spi_bus reset_line spi_baudrate : Z)
  (s s1 : session) (device : device_spec) :
  get_device_id spi_bus reset_line spi_baudrate s = (s1, Ok (Some device)) ->
  returned (snd (process int16 get_device_id fuel spi_bus reset_line spi_baudrate s))
  = true ->
  wires (fst (process int16 get_device_id fuel spi_bus reset_line spi_baudrate s))
  = wires s1
    ++ [SetDirection reset_line OUTPUT; SetStatus reset_line 1;
        Configure spi_bus spi_baudrate; SetStatus reset_line 0;
        OnSpi (Transmit [Byte.xac; Byte.x53; Byte.x00; Byte.x00]); Sleep 500]
    ++ map OnSpi
         (exchange (fuse_low device) [Byte.x50; Byte.x00; Byte.x00]
          ++ exchange (fuse_high device) [Byte.x58; Byte.x08; Byte.x00]
          ++ exchange (fuse_extended device) [Byte.x50; Byte.x08; Byte.x00]
          ++ exchange (lock_bits device) [Byte.x58; Byte.x00; Byte.x00])
    ++ [SetStatus reset_line 1].
Proof.
  intros Hdev Hret.
  destruct (process_wires_general int16 get_device_id fuel spi_bus reset_line
              spi_baudrate s s1 device Hdev) as [traffic [Hwires Hall]].
  rewrite Hwires, Hret, (Hall Hret). reflexivity.
Qed.

(** A run of [process] that does not return, for an identified device (a
    read raised, or [count_trailing_zero] is still looping): once the reset
    line was driven low only calls on the SPI interface follow; the reset
    line is not driven high again. *)
Theorem process_failure_keeps_reset_low (fuel : nat)
  (spi_bus reset_line spi_baudrate : Z) (s s1 : session) (device : device_spec) :
  get_device_id spi_bus reset_line spi_baudrate s = (s1, Ok (Some device)) ->
  returned (snd (process int16 get_device_id fuel spi_bus reset_line spi_baudrate s))
  = false ->
  exists traffic,
    wires (fst (process int16 get_device_id fuel spi_bus reset_line spi_baudrate s))
    = wires s1
      ++ [SetDirection reset_line OUTPUT; SetStatus reset_line 1;
          Configure spi_bus spi_baudrate; SetStatus reset_line 0;
          OnSpi (Transmit [Byte.xac; Byte.x53; Byte.x00; Byte.x00]); Sleep 500]
      ++ map OnSpi traffic.
Proof.
  intros Hdev Hret.
  destruct (process_wires_general int16 get_device_id fuel spi_bus reset_line
              spi_baudrate s s1 device Hdev) as [traffic [Hwires _]].
  exists traffic. rewrite Hwires, Hret. now rewrite app_nil_r.
Qed.

(** Without a device ([get_device_id] gave [None], or did not return)
    [process] does nothing more: the session is as the identification left
    it, and the call ends as the identification did. *)
Theorem process_without_device (fuel : nat) (spi_bus reset_line spi_baudrate : Z)
  (s s1 : session) (r : res (option device_spec)) :
  get_device_id spi_bus reset_line spi_baudrate s = (s1, r) ->
  (forall device, r <> Ok (Some device)) ->
  process int16 get_device_id fuel spi_bus reset_line spi_baudrate s
  = (s1, res_map (fun _ => tt) r).
Proof.
  intros Hdev Hnone. unfold process, pbind. rewrite Hdev.
  destruct r as [[device|]|e|]; [now elim (Hnone device) | reflexivity..].
Qed.

End Reset.

Lemma process_wires_witness :
  wires (fst (process int_hex (identified (Some full_device)) 8 0 3 1000000
                (fresh_session [Byte.x02; Byte.xfd; Byte.x1f; Byte.xff])))
  = wires (fresh_session [Byte.x02; Byte.xfd; Byte.x1f; Byte.xff])
    ++ [SetDirection 3 OUTPUT; SetStatus 3 1; Configure 0 1000000; SetStatus 3 0;
        OnSpi (Transmit [Byte.xac; Byte.x53; Byte.x00; Byte.x00]); Sleep 500]
    ++ map OnSpi
         (exchange (fuse_low full_device) [Byte.x50; Byte.x00; Byte.x00]
          ++ exchange (fuse_high full_device) [Byte.x58; Byte.x08; Byte.x00]
          ++ exchange (fuse_extended full_device) [Byte.x50; Byte.x08; Byte.x00]
          ++ exchange (lock_bits full_device) [Byte.x58; Byte.x00; Byte.x00])
    ++ [SetStatus 3 1].
Proof.
  apply (process_wires int_hex (identified (Some full_device)) 8 0 3 1000000
           (fresh_session [Byte.x02; Byte.xfd; Byte.x1f; Byte.xff])
           (fresh_session [Byte.x02; Byte.xfd; Byte.x1f; Byte.xff]) full_device);
    reflexivity.
Defined.

Lemma process_failure_keeps_reset_low_witness :
  exists traffic,
    wires (fst (process int_hex (identified (Some faulty_device)) 8 0 3 1000000
                  (fresh_session [Byte.x02; Byte.xfd; Byte.xff])))
    = wires (fresh_session [Byte.x02; Byte.xfd; Byte.xff])
      ++ [SetDirection 3 OUTPUT; SetStatus 3 1; Configure 0 1000000; SetStatus 3 0;
          OnSpi (Transmit [Byte.xac; Byte.x53; Byte.x00; Byte.x00]); Sleep 500]
      ++ map OnSpi traffic.
Proof.
  apply (process_failure_keeps_reset_low int_hex (identified (Some faulty_device))
           8 0 3 1000000 (fresh_session [Byte.x02; Byte.xfd; Byte.xff])
           (fresh_session [Byte.x02; Byte.xfd; Byte.xff]) faulty_device);
    reflexivity.
Defined.

Lemma process_without_device_witness :
  process int_hex (identified None) 8 0 3 1000000 (fresh_session [Byte.x02])
  = (fresh_session [Byte.x02],
     res_map (fun _ => tt) (Ok (@None device_spec))).
Proof.
  apply (process_without_device int_hex (identified None) 8 0 3 1000000
           (fresh_session [Byte.x02]) (fresh_session [Byte.x02]) (Ok None)).
  - reflexivity.
  - discriminate.
Defined.

(** The run on the device with the unreadable mask, evaluated: [ValueError]
    after the exchange for the high fuse, and the last write on the reset
    line is the one that drove it low. *)
Example faulty_device_run :
  process int_hex (identified (Some faulty_device)) 8 0 3 1000000
    (fresh_session [Byte.x02; Byte.xfd; Byte.xff])
  = (mkSession
       (mkWorld
          [("Enable Memory Access...", INFO);
           ("Low fuse settings (Byte value: 0x2)", RESULT);
           ("High fuse settings (Byte value: 0xfd)", RESULT)]
          [Transmit [Byte.xac; Byte.x53; Byte.x00; Byte.x00];
           Transmit [Byte.x50; Byte.x00; Byte.x00]; Receive 1;
           Transmit [Byte.x58; Byte.x08; Byte.x00]; Receive 1]
          [Byte.xff] 80
          [mkTable 80 ["Fuse name"; "Status"; "Value"; "Mask"]
             [(("SUT_CKSEL" ++ newline ++ "(Select Clock Source)")%string,
               "Ext Osc", VStr "0x02", "0x0F")]])
       [SetDirection 3 OUTPUT; SetStatus 3 1; Configure 0 1000000; SetStatus 3 0;
        OnSpi (Transmit [Byte.xac; Byte.x53; Byte.x00; Byte.x00]); Sleep 500;
        OnSpi (Transmit [Byte.x50; Byte.x00; Byte.x00]); OnSpi (Receive 1);
        OnSpi (Transmit [Byte.x58; Byte.x08; Byte.x00]); OnSpi (Receive 1)],
     Raise ValueError).
Proof. reflexivity. Qed.
